(** * Document structure inference: feature extraction, heading heuristics,
      title and outline resolution.

    Shallow embedding of [feature_extraction.py] (class PDFFeatureExtractor)
    and [infer.py] (class DocumentStructureInference), of the classifier
    object of [train_model.py] and of the upload filter, the model
    initialisation and the processing endpoint of [routes.py].

    Conventions of the embedding.
    - A pandas DataFrame is the list of its rows, in index order; a column is
      the list obtained by projecting every row; boolean masks are lists of
      booleans aligned with the rows.
    - Python floats are read as the exact rationals they denote ([Q]); the
      arithmetic on them is exact, so rounding is outside the model.  The one
      irrational operation, the square root inside [Series.std], is kept
      symbolic ([Num.surd]) and compared exactly.  A font size within a
      rounding error of a threshold of the heading heuristic can thus fall on
      the other side of it than in the program; the heuristic is therefore
      given a second time over an arithmetic taken as a parameter
      ([FloatArith]), and its specification is proved for every arithmetic,
      the rounded one of the program included.
    - The confidence threshold [0.6] is read as 6/10: the double nearest to
      6/10 lies below it and no double lies between the two, so a double
      exceeds the one exactly when it exceeds the other.
    - NaN, which pandas returns for the mean of no value and for the sample
      standard deviation of fewer than two values, is [None]; every ordered
      comparison against it is false, as in IEEE 754.
    - Python ints are [Z]; Python str is [string], with the character classes
      of the ASCII range.
    - What the program leaves to its libraries is given from outside: the
      pages that PyMuPDF reads from a file ([Fitz]), the model that XGBoost
      fits, [Path.stem], and the path under which an upload is saved.  Files
      are dictionaries by path ([Joblib.Store] for the model files); writing
      and removing a file succeed. *)

From Stdlib Require Import Floats.
From Stdlib Require Import Reals Qreals.
From Stdlib Require Import List ZArith QArith Qabs Bool String Ascii.
From Stdlib Require Import Lia Psatz Permutation Sorted.
Import ListNotations.
Open Scope Q_scope.

(** ** Numbers *)

Module Num.

(** [base + coef * sqrt rad], the shape of every threshold of the heading
    heuristic ([avg + k * std]). *)
Record surd : Type := mkSurd { sbase : Q; scoef : Q; srad : Q }.

(** A float that may be NaN. *)
Definition fnum : Type := option surd.

(** [x >= base + coef * sqrt rad] for [0 <= rad], decided on squares. *)
Definition Qge_surd (x : Q) (t : surd) : bool :=
  let d := x - sbase t in
  let c := scoef t in
  if Qle_bool 0 c
  then Qle_bool 0 d && Qle_bool (c * c * srad t) (d * d)
  else Qle_bool 0 d || Qle_bool (d * d) (c * c * srad t).

(** [x >= t] on floats: false as soon as [t] is NaN.  The comparison is that
    of the exact values: rounding, which the program's own comparison
    undergoes, is left to [FloatArith]. *)
Definition ge (x : Q) (t : fnum) : bool :=
  match t with
  | Some s => Qge_surd x s
  | None => false
  end.

(** [x == m] on floats: false when [m] is NaN. *)
Definition eq_nan (x : Q) (m : option Q) : bool :=
  match m with
  | Some q => Qeq_bool x q
  | None => false
  end.

Definition Qlt_bool (x y : Q) : bool := negb (Qle_bool y x).

Fixpoint Qsum (l : list Q) : Q :=
  match l with
  | [] => 0
  | x :: r => x + Qsum r
  end.

Definition Qlen (l : list Q) : Q := inject_Z (Z.of_nat (List.length l)).

(** [Series.mean()]: NaN on an empty series. *)
Definition mean (l : list Q) : option Q :=
  match l with
  | [] => None
  | _ => Some (Qsum l / Qlen l)
  end.

(** Sample variance, [ddof = 1]. *)
Definition var (l : list Q) : option Q :=
  match mean l with
  | None => None
  | Some m =>
      if (List.length l <? 2)%nat then None
      else Some (Qsum (map (fun x => (x - m) * (x - m)) l) / (Qlen l - 1))
  end.

(** [Series.std()]: pandas' default [ddof = 1]; NaN for fewer than two
    values.  The value is the square root of [var]. *)
Definition std (l : list Q) : fnum :=
  match var l with
  | Some v => Some (mkSurd 0 1 v)
  | None => None
  end.

(** [avg + k * std], NaN as soon as one operand is. *)
Definition add_scaled (avg : option Q) (k : Q) (sd : fnum) : fnum :=
  match avg, sd with
  | Some a, Some s => Some (mkSurd (a + k * sbase s) (k * scoef s) (srad s))
  | _, _ => None
  end.

(** [Series.max()] and the builtin [max]: the first maximal element; NaN
    (respectively an exception) on no value. *)
Fixpoint max_from (cur : Q) (l : list Q) : Q :=
  match l with
  | [] => cur
  | x :: r => max_from (if Qlt_bool cur x then x else cur) r
  end.

Definition max (l : list Q) : option Q :=
  match l with
  | [] => None
  | x :: r => Some (max_from x r)
  end.

End Num.

(** ** Python [str] operations used by the feature extractor *)

Module PyStr.

Definition code (c : ascii) : nat := nat_of_ascii c.

Definition isupper_char (c : ascii) : bool :=
  ((65 <=? code c) && (code c <=? 90))%nat.

Definition islower_char (c : ascii) : bool :=
  ((97 <=? code c) && (code c <=? 122))%nat.

Definition isdigit_char (c : ascii) : bool :=
  ((48 <=? code c) && (code c <=? 57))%nat.

(** Whitespace of [str.split()] and [str.strip()]: tab to carriage return,
    the four separators 28..31, and the space.  The texts of the model are
    ASCII; the further whitespace of Unicode (U+0085, U+00A0 and the like)
    does not occur in them. *)
Definition isspace_char (c : ascii) : bool :=
  (((9 <=? code c) && (code c <=? 13))
   || ((28 <=? code c) && (code c <=? 31))
   || (code c =? 32))%nat.

Definition chars (s : string) : list ascii := list_ascii_of_string s.

(** [len(text)] *)
Definition len (s : string) : Z := Z.of_nat (String.length s).

(** [text.isupper()]: no lowercase character and at least one cased one. *)
Definition isupper (s : string) : bool :=
  forallb (fun c => negb (islower_char c)) (chars s)
  && existsb isupper_char (chars s).

(** [text.istitle()]: uppercase only after an uncased character, lowercase
    only after a cased one, and at least one cased character. *)
Fixpoint istitle_from (previous_is_cased cased : bool) (l : list ascii) : bool :=
  match l with
  | [] => cased
  | c :: r =>
      if isupper_char c then
        if previous_is_cased then false else istitle_from true true r
      else if islower_char c then
        if previous_is_cased then istitle_from true true r else false
      else istitle_from false cased r
  end.

Definition istitle (s : string) : bool := istitle_from false false (chars s).

(** [len(text.split())]: the number of maximal runs of non-whitespace. *)
Fixpoint count_words (in_word : bool) (l : list ascii) : nat :=
  match l with
  | [] => 0
  | c :: r =>
      if isspace_char c then count_words false r
      else if in_word then count_words true r
      else S (count_words true r)
  end.

Definition word_count (s : string) : Z := Z.of_nat (count_words false (chars s)).

(** [bool(re.search(r'\d', text))] *)
Definition has_digit (s : string) : bool := existsb isdigit_char (chars s).

Fixpoint lstrip (l : list ascii) : list ascii :=
  match l with
  | [] => []
  | c :: r => if isspace_char c then lstrip r else l
  end.

(** [text.strip()] *)
Definition strip (l : list ascii) : list ascii :=
  rev (lstrip (rev (lstrip l))).

(** [bool(re.match(r'^\d', text.strip()))] *)
Definition starts_with_digit (s : string) : bool :=
  match strip (chars s) with
  | c :: _ => isdigit_char c
  | [] => false
  end.

(** [c.lower()] *)
Definition lower_char (c : ascii) : ascii :=
  if isupper_char c then ascii_of_nat (code c + 32) else c.

(** [text.lower()] *)
Definition lower (l : list ascii) : list ascii := map lower_char l.

(** [sep in text] for a one-character [sep] *)
Definition contains (sep : ascii) (l : list ascii) : bool :=
  existsb (Ascii.eqb sep) l.

(** [text.rsplit(sep, 1)]: the text cut at its last [sep], or the text alone
    when it has no [sep]. *)
Fixpoint rsplit1 (sep : ascii) (l : list ascii) : list (list ascii) :=
  match l with
  | [] => [[]]
  | c :: r =>
      match rsplit1 sep r with
      | [before; after] => [c :: before; after]
      | _ => if Ascii.eqb c sep then [[]; r] else [c :: r]
      end
  end.

End PyStr.

(** ** feature_extraction.py *)

(** A raw text span, the dictionary built by [extract_text_spans]. *)
Module Span.
Record t : Type := mk {
  text : string;
  font_size : Q;
  font_name : string;
  flags : Z;
  bbox : Q * Q * Q * Q;
  page_number : Z;
  page_width : Q;
  page_height : Q
}.

Definition bbox0 (s : t) : Q := let '(x0, _, _, _) := bbox s in x0.
Definition bbox1 (s : t) : Q := let '(_, y0, _, _) := bbox s in y0.
Definition bbox3 (s : t) : Q := let '(_, _, _, y1) := bbox s in y1.
End Span.

(** The dictionary of a page as PyMuPDF gives it ([page.get_text("dict")]),
    as far as [extract_text_spans] reads it. *)
Module Fitz.
Record RawSpan : Type := mkSpan {
  text : string;
  size : Q;
  font : string;
  flags : Z;
  bbox : Q * Q * Q * Q
}.

Record Line : Type := mkLine { spans : list RawSpan }.

(** A block has the key ["lines"] or, for an image, has not. *)
Record Block : Type := mkBlock { lines : option (list Line) }.

Record Page : Type := mkPage {
  rect_width : Q;
  rect_height : Q;
  blocks : list Block
}.
End Fitz.

(** One row of the feature table: the text and the sixteen features. *)
Record Row : Type := mkRow {
  text : string;
  font_size : Q;
  is_bold : Z;
  is_italic : Z;
  x_position : Q;
  y_position : Q;
  text_length : Z;
  is_uppercase : Z;
  is_title_case : Z;
  is_centered : Z;
  line_spacing : Q;
  page_number : Z;
  font_size_ratio : Q;
  position_ratio : Q;
  word_count : Z;
  has_numbers : Z;
  starts_with_number : Z
}.

(** [int(b)] *)
Definition int_of_bool (b : bool) : Z := if b then 1%Z else 0%Z.

(** [bool(n)] for an int *)
Definition bool_of_int (n : Z) : bool := negb (n =? 0)%Z.

(** Python dictionaries with string keys, in insertion order. *)
Module Dict.

Fixpoint get {V : Type} (d : list (string * V)) (key : string) : option V :=
  match d with
  | [] => None
  | (k, v) :: d' => if String.eqb k key then Some v else get d' key
  end.

(** [d[key] = v]: the value of an existing key is replaced in place, a new
    key goes last. *)
Fixpoint set {V : Type} (d : list (string * V)) (key : string) (v : V)
  : list (string * V) :=
  match d with
  | [] => [(key, v)]
  | (k, v') :: d' =>
      if String.eqb k key then (k, v) :: d' else (k, v') :: set d' key v
  end.

End Dict.

(** A cell of a frame built from dictionaries: a string or a number. *)
Inductive Cell : Type :=
| CStr (s : string)
| CNum (q : Q).

(** ** DataFrame operations *)

Module DF.

(** [df[mask]] *)
Fixpoint select {A : Type} (df : list A) (mask : list bool) : list A :=
  match df, mask with
  | r :: df', b :: mask' =>
      if b then r :: select df' mask' else select df' mask'
  | _, _ => []
  end.

(** [m1 & m2] *)
Fixpoint mand (m1 m2 : list bool) : list bool :=
  match m1, m2 with
  | a :: r1, b :: r2 => (a && b) :: mand r1 r2
  | _, _ => []
  end.

(** [m1 | m2] *)
Fixpoint mor (m1 m2 : list bool) : list bool :=
  match m1, m2 with
  | a :: r1, b :: r2 => (a || b) :: mor r1 r2
  | _, _ => []
  end.

(** [df.empty] *)
Definition empty {A : Type} (df : list A) : bool :=
  match df with
  | [] => true
  | _ => false
  end.

(** [np.where(cond, a, b)] *)
Fixpoint np_where (cond : list bool) (a b : list Z) : list Z :=
  match cond, a, b with
  | c :: cr, x :: ar, y :: br => (if c then x else y) :: np_where cr ar br
  | _, _, _ => []
  end.

(** [np.select(condlist, choicelist, default)] over [n] rows: at each row
    the choice of the first condition that holds there, else the
    default. *)
Fixpoint np_select (condlist : list (list bool)) (choicelist : list Z)
         (default : Z) (n : nat) : list Z :=
  match condlist, choicelist with
  | cond :: conds, choice :: choices =>
      np_where cond (repeat choice n) (np_select conds choices default n)
  | _, _ => repeat default n
  end.

(** [series.idxmax()]: the position of the first maximum. *)
Fixpoint idxmax_from (cur : Q) (icur i : nat) (l : list Q) : nat :=
  match l with
  | [] => icur
  | x :: r =>
      if Num.Qlt_bool cur x then idxmax_from x i (S i) r
      else idxmax_from cur icur (S i) r
  end.

Definition idxmax (l : list Q) : option nat :=
  match l with
  | [] => None
  | x :: r => Some (idxmax_from x 0%nat 1%nat r)
  end.

(** Stable insertion of [x] in front of the first row that [x] does not
    exceed. *)
Fixpoint insert {A : Type} (leb : A -> A -> bool) (x : A) (l : list A) : list A :=
  match l with
  | [] => [x]
  | y :: r => if leb x y then x :: l else y :: insert leb x r
  end.

(** [df.sort_values(keys)] for the order [leb] on the keys: the stable
    sort, so rows with equal keys keep their relative order. *)
Fixpoint sort_values {A : Type} (leb : A -> A -> bool) (df : list A) : list A :=
  match df with
  | [] => []
  | x :: r => insert leb x (sort_values leb r)
  end.

(** All the values, or [None] if one is missing. *)
Fixpoint all_some {A : Type} (l : list (option A)) : option (list A) :=
  match l with
  | [] => Some []
  | x :: r =>
      match x, all_some r with
      | Some a, Some rest => Some (a :: rest)
      | _, _ => None
      end
  end.

(** [df[names]] on a frame built from one dictionary per row: the cells of
    the named columns, row by row; [None] is the [KeyError] of a name that
    is no column. *)
Definition select_columns (names : list string)
           (records : list (list (string * Cell))) : option (list (list Cell)) :=
  all_some (map (fun record => all_some (map (Dict.get record) names)) records).

End DF.

Module PDFFeatureExtractor.

(** [self.feature_names] *)
Definition feature_names : list string :=
  ["font_size"; "is_bold"; "is_italic"; "x_position"; "y_position";
   "text_length"; "is_uppercase"; "is_title_case"; "is_centered";
   "line_spacing"; "page_number"; "font_size_ratio"; "position_ratio";
   "word_count"; "has_numbers"; "starts_with_number"]%string.

(** The feature vector of a row, in the order of [feature_names]:
    [features_df[feature_columns]]. *)
Definition feature_vector (r : Row) : list Q :=
  [font_size r; inject_Z (is_bold r); inject_Z (is_italic r);
   x_position r; y_position r; inject_Z (text_length r);
   inject_Z (is_uppercase r); inject_Z (is_title_case r);
   inject_Z (is_centered r); line_spacing r; inject_Z (page_number r);
   font_size_ratio r; position_ratio r; inject_Z (word_count r);
   inject_Z (has_numbers r); inject_Z (starts_with_number r)].

(** The body of the loop of [calculate_features] for one span, given the
    document-wide maximum font size. *)
Definition span_features (max_font_size : Q) (span : Span.t) : Row :=
  let text := Span.text span in
  let font_size := Span.font_size span in
  let flags := Span.flags span in
  let page_width := Span.page_width span in
  let page_height := Span.page_height span in
  let is_bold := bool_of_int (Z.land flags (2 ^ 4)) in
  let is_italic := bool_of_int (Z.land flags (2 ^ 1)) in
  let x_position := Span.bbox0 span in
  let y_position := Span.bbox1 span in
  let text_length := PyStr.len text in
  let is_uppercase := PyStr.isupper text in
  let is_title_case := PyStr.istitle text in
  let word_count := PyStr.word_count text in
  let has_numbers := PyStr.has_digit text in
  let starts_with_number := PyStr.starts_with_digit text in
  let is_centered :=
    Num.Qlt_bool (Qabs (x_position - page_width / 2)) (page_width * (1 # 10)) in
  let font_size_ratio :=
    if Num.Qlt_bool 0 max_font_size then font_size / max_font_size else 0 in
  let position_ratio :=
    if Num.Qlt_bool 0 page_height then y_position / page_height else 0 in
  let line_spacing := Span.bbox3 span - Span.bbox1 span in
  {| text := text;
     font_size := font_size;
     is_bold := int_of_bool is_bold;
     is_italic := int_of_bool is_italic;
     x_position := x_position;
     y_position := y_position;
     text_length := text_length;
     is_uppercase := int_of_bool is_uppercase;
     is_title_case := int_of_bool is_title_case;
     is_centered := int_of_bool is_centered;
     line_spacing := line_spacing;
     page_number := Span.page_number span;
     font_size_ratio := font_size_ratio;
     position_ratio := position_ratio;
     word_count := word_count;
     has_numbers := int_of_bool has_numbers;
     starts_with_number := int_of_bool starts_with_number |}.

(** The document-wide maximum font size: [max(font_sizes) if font_sizes
    else 1]. *)
Definition max_font_size (spans : list Span.t) : Q :=
  match Num.max (map Span.font_size spans) with
  | Some m => m
  | None => 1
  end.

(** [calculate_features]: the empty frame for no span, else one row per
    span, in the order of the spans.  The minimum and the mean of the font
    sizes are computed by the source as well and never used. *)
Definition calculate_features (spans : list Span.t) : list Row :=
  match spans with
  | [] => []
  | _ => map (span_features (max_font_size spans)) spans
  end.

(** The dictionary appended to [features] for one span:
    [{'text': ..., 'page_number': ..., **dict(zip(feature_names,
    feature_vector))}], the values being those of [span_features]. *)
Definition feature_record (max_font_size : Q) (span : Span.t)
  : list (string * Cell) :=
  let feature_vector := feature_vector (span_features max_font_size span) in
  fold_left
    (fun d kv => Dict.set d (fst kv) (snd kv))
    (combine feature_names (map CNum feature_vector))
    [ ("text"%string, CStr (Span.text span));
      ("page_number"%string, CNum (inject_Z (Span.page_number span))) ].

(** [calculate_features], as the list of the dictionaries from which the
    frame is built. *)
Definition calculate_feature_records (spans : list Span.t)
  : list (list (string * Cell)) :=
  match spans with
  | [] => []
  | _ => map (feature_record (max_font_size spans)) spans
  end.

(** The dictionary [span_info] built for a span that is kept. *)
Definition span_info (page_num : Z) (page : Fitz.Page) (span : Fitz.RawSpan) : Span.t :=
  {| Span.text := string_of_list_ascii (PyStr.strip (PyStr.chars (Fitz.text span)));
     Span.font_size := Fitz.size span;
     Span.font_name := Fitz.font span;
     Span.flags := Fitz.flags span;
     Span.bbox := Fitz.bbox span;
     Span.page_number := (page_num + 1)%Z;
     Span.page_width := Fitz.rect_width page;
     Span.page_height := Fitz.rect_height page |}.

(** The three inner loops of [extract_text_spans] on one page: the spans of
    the lines of the blocks that have lines, those with only whitespace
    left out. *)
Definition page_spans (page_num : Z) (page : Fitz.Page) : list Span.t :=
  flat_map
    (fun block =>
       match Fitz.lines block with
       | Some lines =>
           flat_map
             (fun line =>
                flat_map
                  (fun span =>
                     match PyStr.strip (PyStr.chars (Fitz.text span)) with
                     | [] => []
                     | _ :: _ => [span_info page_num page span]
                     end)
                  (Fitz.spans line))
             lines
       | None => []
       end)
    (Fitz.blocks page).

(** The loop over [range(len(doc))], from page index [page_num] on. *)
Fixpoint doc_spans (page_num : Z) (doc : list Fitz.Page) : list Span.t :=
  match doc with
  | [] => []
  | page :: rest => page_spans page_num page ++ doc_spans (page_num + 1)%Z rest
  end.

(** [extract_text_spans], from the outcome of [fitz.open]: [None] is its
    exception, which is logged and raised again. *)
Definition extract_text_spans (pdf : option (list Fitz.Page)) : option (list Span.t) :=
  option_map (doc_spans 0%Z) pdf.

(** [extract_features_from_pdf] *)
Definition extract_features_from_pdf (pdf : option (list Fitz.Page)) : option (list Row) :=
  option_map calculate_features (extract_text_spans pdf).

(** [identify_title_heuristic]: the largest bold text of the first page,
    else the largest text of the first page; [None] when there is none. *)
Definition identify_title_heuristic (features_df : list Row) : option string :=
  if DF.empty features_df then None
  else
    let first_page :=
      DF.select features_df (map (fun r => (page_number r =? 1)%Z) features_df) in
    if DF.empty first_page then None
    else
      let fmax := Num.max (map font_size first_page) in
      let title_candidates :=
        DF.select first_page
          (DF.mand (map (fun r => Num.eq_nan (font_size r) fmax) first_page)
                   (map (fun r => (is_bold r =? 1)%Z) first_page)) in
      match title_candidates with
      | r :: _ => Some (text r)
      | [] =>
          let largest_text :=
            DF.select first_page
              (map (fun r => Num.eq_nan (font_size r) fmax) first_page) in
          match largest_text with
          | r :: _ => Some (text r)
          | [] => None
          end
      end.

End PDFFeatureExtractor.

(** ** infer.py *)

(** A row of the feature table once [predicted_class] and [max_probability]
    have been attached. *)
Record ARow : Type := mkARow {
  row :> Row;
  predicted_class : Z;
  max_probability : Q
}.

(** An entry of the outline. *)
Record Heading : Type := mkHeading {
  level : string;
  htext : string;
  page : Z
}.

(** The result of [process_pdf]. *)
Record DocumentResult : Type := mkResult {
  title : string;
  outline : list Heading
}.

(** The trained model, as far as the inference engine uses it: [predict] and
    [predict_proba] over the feature matrix; [None] is a raised exception. *)
Record Classifier : Type := mkClassifier {
  predict : list (list Q) -> option (list Z);
  predict_proba : list (list Q) -> option (list (list Q))
}.

(** Calls made by [process_pdf], and the monad that records them: the trace
    of calls so far together with the value, [None] once an exception
    propagates. *)
Inductive Call : Type :=
| CallPredict
| CallPredictProba
| CallExtractTitle
| CallExtractOutline.

Module Trace.

Definition M (A : Type) : Type := (list Call * option A)%type.

Definition ret {A : Type} (a : A) : M A := ([], Some a).

Definition bind {A B : Type} (m : M A) (f : A -> M B) : M B :=
  match m with
  | (t, Some a) => let '(t', b) := f a in (t ++ t', b)
  | (t, None) => (t, None)
  end.

(** Make the call [c], whose outcome is [v]. *)
Definition perform {A : Type} (c : Call) (v : option A) : M A := ([c], v).

(** A step that may raise and is not a call. *)
Definition lift {A : Type} (v : option A) : M A := ([], v).

End Trace.

Notation "x <- m ;; k" := (Trace.bind m (fun x => k))
  (at level 61, m at next level, right associativity).

(** What [joblib.dump] and [joblib.load] exchange through the file system. *)
Module Joblib.

(** The objects that the model files of this program hold. *)
Inductive PyValue : Type :=
| VNone
| VModel (m : Classifier)
| VFeatureNames (names : list string)
| VClassNames (names : list (Z * string)).

(** A pickled dictionary, and the files by path. *)
Definition ModelData : Type := list (string * PyValue).
Definition Store : Type := list (string * ModelData).

(** [joblib.load(path)]; [None] is its exception for a missing file. *)
Definition load (fs : Store) (path : string) : option ModelData := Dict.get fs path.

(** [joblib.dump(data, path)] *)
Definition dump (fs : Store) (data : ModelData) (path : string) : Store :=
  Dict.set fs path data.

(** [obj.predict] and [obj.predict_proba] on a loaded object: an object
    that is no model has no such method, and the call raises. *)
Definition as_model (v : PyValue) : Classifier :=
  match v with
  | VModel m => m
  | _ => {| predict := fun _ => None; predict_proba := fun _ => None |}
  end.

End Joblib.

Module DocumentStructureInference.

Import PDFFeatureExtractor.

(** [self.confidence_threshold = 0.6] *)
Definition confidence_threshold : Q := 6 # 10.

(** [df['predicted_class'] = classes; df['max_probability'] = probs];
    [None], an exception, when the lengths differ. *)
Fixpoint assign (df : list Row) (classes : list Z) (probs : list Q)
  : option (list ARow) :=
  match df, classes, probs with
  | [], [], [] => Some []
  | r :: df', c :: cs, p :: ps => option_map (cons (mkARow r c p)) (assign df' cs ps)
  | _, _, _ => None
  end.

(** The same on the copy made by the heuristic: a column of classes, one per
    row, and one scalar probability. *)
Fixpoint assign_const (df : list ARow) (classes : list Z) (prob : Q) : list ARow :=
  match df, classes with
  | r :: df', c :: cs => mkARow (row r) c prob :: assign_const df' cs prob
  | _, _ => []
  end.

(** [_heuristic_heading_detection] *)
Definition _heuristic_heading_detection (features_df : list ARow) : list ARow :=
  let sizes := map (fun r : ARow => font_size r) features_df in
  let avg_font_size := Num.mean sizes in
  let std_font_size := Num.std sizes in
  let h1_threshold := Num.add_scaled avg_font_size (3 # 2) std_font_size in
  let h2_threshold := Num.add_scaled avg_font_size 1 std_font_size in
  let h3_threshold := Num.add_scaled avg_font_size (1 # 2) std_font_size in
  let bold := map (fun r : ARow => (is_bold r =? 1)%Z) features_df in
  let upper := map (fun r : ARow => (is_uppercase r =? 1)%Z) features_df in
  let conditions :=
    [ DF.mand (map (fun r : ARow => Num.ge (font_size r) h1_threshold) features_df) bold;
      DF.mand (map (fun r : ARow => Num.ge (font_size r) h2_threshold) features_df) bold;
      DF.mand (map (fun r : ARow => Num.ge (font_size r) h3_threshold) features_df)
              (DF.mor bold upper) ] in
  let choices := [3; 2; 1]%Z in
  let features_df :=
    assign_const features_df
      (DF.np_select conditions choices 0%Z (List.length features_df)) 1 in
  DF.select features_df (map (fun r => (0 <? predicted_class r)%Z) features_df).

(** [h1_candidates.loc[h1_candidates['font_size'].idxmax()]]: the index of
    a feature table is the range index, so the label returned by [idxmax]
    designates the row at the position of the first maximum. *)
Definition loc_idxmax (df : list ARow) : option ARow :=
  match DF.idxmax (map (fun r : ARow => font_size r) df) with
  | Some i => nth_error df i
  | None => None
  end.

(** [title if title else ""] *)
Definition or_empty (t : option string) : string :=
  match t with
  | Some s => if (String.length s =? 0)%nat then EmptyString else s
  | None => EmptyString
  end.

(** [_extract_title].  The last branch of the [match] is never taken:
    [idxmax] of a non-empty frame is one of its positions. *)
Definition _extract_title (features_df : list ARow) : string :=
  let first_page :=
    DF.select features_df (map (fun r : ARow => (page_number r =? 1)%Z) features_df) in
  let fallback := or_empty (identify_title_heuristic (map row features_df)) in
  if negb (DF.empty first_page) then
    let h1_candidates :=
      DF.select first_page
        (DF.mand (map (fun r => (predicted_class r =? 3)%Z) first_page)
                 (map (fun r => Num.Qlt_bool confidence_threshold (max_probability r))
                      first_page)) in
    if negb (DF.empty h1_candidates) then
      match loc_idxmax h1_candidates with
      | Some title_candidate => text title_candidate
      | None => fallback
      end
    else fallback
  else fallback.

(** [level_map = {3: 'H1', 2: 'H2', 1: 'H3'}] *)
Definition level_map : list (Z * string) :=
  [(3%Z, "H1"%string); (2%Z, "H2"%string); (1%Z, "H3"%string)].

(** [dict.get(key, default)] *)
Fixpoint dict_get (d : list (Z * string)) (key : Z) (default : string) : string :=
  match d with
  | [] => default
  | (k, v) :: d' => if (k =? key)%Z then v else dict_get d' key default
  end.

(** The order of [sort_values(['page_number', 'y_position'])]. *)
Definition key_leb (a b : ARow) : bool :=
  (page_number a <? page_number b)%Z
  || ((page_number a =? page_number b)%Z && Qle_bool (y_position a) (y_position b)).

(** The body of the loop over [headings.iterrows()]. *)
Definition heading_of (heading : ARow) : Heading :=
  {| level := dict_get level_map (predicted_class heading) "H3"%string;
     htext := text heading;
     page := page_number heading |}.

(** [predicted_class.isin([1, 2, 3])] *)
Definition isin (l : list Z) (x : Z) : bool := existsb (Z.eqb x) l.

(** The rows that the classifier holds for headings, with confidence. *)
Definition confident_headings (features_df : list ARow) : list ARow :=
  DF.select features_df
    (DF.mand (map (fun r => isin [1; 2; 3]%Z (predicted_class r)) features_df)
             (map (fun r => Num.Qlt_bool confidence_threshold (max_probability r))
                  features_df)).

(** The candidate set of [_extract_outline], before it is sorted. *)
Definition candidates (features_df : list ARow) : list ARow :=
  let headings := confident_headings features_df in
  if DF.empty headings then _heuristic_heading_detection features_df
  else headings.

(** [_extract_outline] *)
Definition _extract_outline (features_df : list ARow) : list Heading :=
  let headings := candidates features_df in
  let headings := DF.sort_values key_leb headings in
  map heading_of headings.

(** [np.max(probabilities, axis=1)]; [None] on a row without a column. *)
Fixpoint np_max_axis1 (probabilities : list (list Q)) : option (list Q) :=
  match probabilities with
  | [] => Some []
  | p :: ps =>
      match Num.max p, np_max_axis1 ps with
      | Some m, Some ms => Some (m :: ms)
      | _, _ => None
      end
  end.

(** [process_pdf], from the spans that [extract_text_spans] returned. *)
Definition process_pdf (model : Classifier) (spans : list Span.t)
  : Trace.M DocumentResult :=
  let features_df := calculate_features spans in
  if DF.empty features_df then Trace.ret {| title := EmptyString; outline := [] |}
  else
    let X := map feature_vector features_df in
    predictions <- Trace.perform CallPredict (predict model X) ;;
    probabilities <- Trace.perform CallPredictProba (predict_proba model X) ;;
    maxima <- Trace.lift (np_max_axis1 probabilities) ;;
    features_df <- Trace.lift (assign features_df predictions maxima) ;;
    title <- Trace.perform CallExtractTitle (Some (_extract_title features_df)) ;;
    outline <- Trace.perform CallExtractOutline (Some (_extract_outline features_df)) ;;
    Trace.ret {| title := title; outline := outline |}.

(** [process_pdf] from the document: the spans are extracted first, and an
    exception of the extraction is raised again. *)
Definition process_pdf_file (model : Classifier) (pdf : option (list Fitz.Page))
  : Trace.M DocumentResult :=
  match extract_text_spans pdf with
  | Some spans => process_pdf model spans
  | None => Trace.lift None
  end.

(** The state of an inference engine after [__init__]. *)
Record Engine : Type := mkEngine {
  engine_model : Joblib.PyValue;
  engine_class_names : Joblib.PyValue;
  engine_confidence_threshold : Q
}.

(** [__init__] with [load_model]: the model file is read and its entries
    ['model'] and ['class_names'] are kept; [None] is the exception of a
    missing file or a missing key, raised again. *)
Definition init (fs : Joblib.Store) (model_path : string) : option Engine :=
  match Joblib.load fs model_path with
  | Some model_data =>
      match Dict.get model_data "model", Dict.get model_data "class_names" with
      | Some m, Some names => Some (mkEngine m names confidence_threshold)
      | _, _ => None
      end
  | None => None
  end.

(** [process_pdf] of an engine. *)
Definition engine_process_pdf (e : Engine) (pdf : option (list Fitz.Page))
  : Trace.M DocumentResult :=
  process_pdf_file (Joblib.as_model (engine_model e)) pdf.

(** An entry of the dictionary returned by [process_batch]: the result of a
    document, or [{"error": ...}]. *)
Inductive BatchEntry : Type :=
| Processed (result : DocumentResult)
| Failed.

(** [process_batch] over the files found in the folder, each with its name
    and the outcome of opening it; [stem] is [Path.stem].  The value is the
    dictionary [results] and the JSON files written, in the order they are
    written; writing is taken to succeed. *)
Definition process_batch (model : Classifier) (stem : string -> string)
           (pdf_files : list (string * option (list Fitz.Page)))
  : list (string * BatchEntry) * list (string * DocumentResult) :=
  fold_left
    (fun (st : list (string * BatchEntry) * list (string * DocumentResult))
         (pdf_file : string * option (list Fitz.Page)) =>
       let '(results, written) := st in
       let '(name, pdf) := pdf_file in
       match snd (process_pdf_file model pdf) with
       | Some result =>
           (Dict.set results name (Processed result),
            written ++ [((stem name ++ ".json")%string, result)])
       | None => (Dict.set results name Failed, written)
       end)
    pdf_files ([], []).


End DocumentStructureInference.

(** ** The heading heuristic over the arithmetic of pandas *)

(** [_heuristic_heading_detection] once more, with the arithmetic it leaves
    to pandas and to Python given from outside, so that what is proved of it
    holds for the rounded arithmetic of the program as for any other. *)
Module FloatArith.

(** The operations on floats of the detector.  The font sizes of a table
    are doubles and are given by their values, which are rationals; [F] holds
    what is computed from them, NaN included. *)
Record Arith : Type := mkArith {
  F : Type;
  (** [series.mean()] *)
  mean : list Q -> F;
  (** [series.std()] *)
  std : list Q -> F;
  (** a literal, such as [1.5] *)
  const : Q -> F;
  (** [a * b] *)
  mul : F -> F -> F;
  (** [a + b] *)
  add : F -> F -> F;
  (** [x >= t], for [x] of the series *)
  ge : Q -> F -> bool
}.

(** [_heuristic_heading_detection] *)
Definition _heuristic_heading_detection (A : Arith) (features_df : list ARow)
  : list ARow :=
  let sizes := map (fun r : ARow => font_size r) features_df in
  let avg_font_size := mean A sizes in
  let std_font_size := std A sizes in
  let h1_threshold := add A avg_font_size (mul A (const A (3 # 2)) std_font_size) in
  let h2_threshold := add A avg_font_size (mul A (const A 1) std_font_size) in
  let h3_threshold := add A avg_font_size (mul A (const A (1 # 2)) std_font_size) in
  let bold := map (fun r : ARow => (is_bold r =? 1)%Z) features_df in
  let upper := map (fun r : ARow => (is_uppercase r =? 1)%Z) features_df in
  let conditions :=
    [ DF.mand (map (fun r : ARow => ge A (font_size r) h1_threshold) features_df) bold;
      DF.mand (map (fun r : ARow => ge A (font_size r) h2_threshold) features_df) bold;
      DF.mand (map (fun r : ARow => ge A (font_size r) h3_threshold) features_df)
              (DF.mor bold upper) ] in
  let choices := [3; 2; 1]%Z in
  let features_df :=
    DocumentStructureInference.assign_const features_df
      (DF.np_select conditions choices 0%Z (List.length features_df)) 1 in
  DF.select features_df (map (fun r => (0 <? predicted_class r)%Z) features_df).

End FloatArith.

(** ** train_model.py *)

Module DocumentStructureClassifier.

(** The state of a classifier object: [self.model], [None] until trained or
    loaded, and [self.class_names]. *)
Record t : Type := mk {
  model : Joblib.PyValue;
  class_names : Joblib.PyValue
}.

(** [__init__] *)
Definition new : t :=
  {| model := Joblib.VNone;
     class_names :=
       Joblib.VClassNames
         [(0%Z, "body"%string); (1%Z, "H3"%string); (2%Z, "H2"%string);
          (3%Z, "H1"%string)] |}.

(** [self.model is None] *)
Definition is_none (v : Joblib.PyValue) : bool :=
  match v with
  | Joblib.VNone => true
  | _ => false
  end.

(** [train], given the model that XGBoost fits on the training data: the
    object keeps it. *)
Definition train (self : t) (fitted : Classifier) : t :=
  {| model := Joblib.VModel fitted; class_names := class_names self |}.

(** [predict]: [ValueError] without a model. *)
Definition predict (self : t) (X : list (list Q)) : option (list Z) :=
  if is_none (model self) then None
  else predict (Joblib.as_model (model self)) X.

(** [predict_proba]: [ValueError] without a model. *)
Definition predict_proba (self : t) (X : list (list Q)) : option (list (list Q)) :=
  if is_none (model self) then None
  else predict_proba (Joblib.as_model (model self)) X.

(** [save_model]: [ValueError] without a model, else the dictionary of the
    model, the feature names and the class names is dumped at the path. *)
Definition save_model (self : t) (fs : Joblib.Store) (model_path : string)
  : option Joblib.Store :=
  if is_none (model self) then None
  else
    let model_data :=
      [ ("model"%string, model self);
        ("feature_names"%string,
         Joblib.VFeatureNames PDFFeatureExtractor.feature_names);
        ("class_names"%string, class_names self) ] in
    Some (Joblib.dump fs model_data model_path).

(** [load_model]: the object after the call, and whether the call returned
    ([false]: it raised).  The model is assigned before the class names are
    looked up. *)
Definition load_model (self : t) (fs : Joblib.Store) (model_path : string)
  : t * bool :=
  match Joblib.load fs model_path with
  | None => (self, false)
  | Some model_data =>
      match Dict.get model_data "model" with
      | None => (self, false)
      | Some m =>
          let self := {| model := m; class_names := class_names self |} in
          match Dict.get model_data "class_names" with
          | None => (self, false)
          | Some names => ({| model := model self; class_names := names |}, true)
          end
      end
  end.

(** [train_document_classifier].  [training] is the outcome of the steps
    that the function leaves to its libraries, the generation of the data,
    the fit, [mkdir] and [joblib.dump]: the fitted model if they all return,
    [None] if one of them raises, in which case the function raises and no
    file is written.  The value is the trained classifier with the file
    system after [save_model]. *)
Definition train_document_classifier (training : option Classifier)
           (fs : Joblib.Store) (model_save_path : string)
  : option (t * Joblib.Store) :=
  match training with
  | None => None
  | Some fitted =>
      let classifier := new in
      let classifier := train classifier fitted in
      match save_model classifier fs model_save_path with
      | Some fs' => Some (classifier, fs')
      | None => None
      end
  end.

End DocumentStructureClassifier.

(** ** routes.py *)

Module Routes.

(** [allowed_file].  The index 1 of the split exists as soon as the name has
    a dot. *)
Definition allowed_file (filename : string) : bool :=
  let name := PyStr.chars filename in
  PyStr.contains "."%char name
  && match nth_error (PyStr.rsplit1 "."%char name) 1 with
     | Some ext => String.eqb (string_of_list_ascii (PyStr.lower ext)) "pdf"
     | None => false
     end.

(** [init_model], given the outcome of training ([None]: it raised) and the
    path of the model file: the file system and the global
    [inference_engine] after the call, and the value returned. *)
Definition init_model (training : option Classifier) (fs : Joblib.Store)
           (model_path : string)
           (inference_engine : option DocumentStructureInference.Engine)
  : Joblib.Store * option DocumentStructureInference.Engine * bool :=
  let exists_ :=
    match Dict.get fs model_path with
    | Some _ => true
    | None => false
    end in
  let trained : option Joblib.Store :=
    if exists_ then Some fs
    else
      option_map snd
        (DocumentStructureClassifier.train_document_classifier
           training fs model_path) in
  match trained with
  | None => (fs, inference_engine, false)
  | Some fs' =>
      match DocumentStructureInference.init fs' model_path with
      | Some engine => (fs', Some engine, true)
      | None => (fs', inference_engine, false)
      end
  end.

(** An uploaded file: its name and the outcome of opening it as a PDF. *)
Record Upload : Type := mkUpload {
  filename : string;
  content : option (list Fitz.Page)
}.

(** The state that the handlers share: the model files, the global
    [inference_engine] and the paths present in the upload folder. *)
Record Server : Type := mkServer {
  model_files : Joblib.Store;
  inference_engine : option DocumentStructureInference.Engine;
  uploads : list string
}.

(** The JSON body of a response of [api_process]: [{'error': message}] with
    a fixed message, [{'error': str(e)}] for an exception, or the result. *)
Inductive Body : Type :=
| Error (message : string)
| ErrorOfException
| Result (result : DocumentResult).

(** [api_process].  [file] is [request.files['file']] if the request has
    one; [upload_path] gives the path at which the file is saved, made of
    the upload folder, a fresh UUID and the secured file name; saving and
    removing the file are taken to succeed.  The value is the state after
    the request and the response, body and status. *)
Definition api_process (training : option Classifier) (model_path : string)
           (upload_path : string -> string) (st : Server) (file : option Upload)
  : Server * (Body * Z) :=
  let '(fs, engine, ready) :=
    match inference_engine st with
    | Some _ => (model_files st, inference_engine st, true)
    | None => init_model training (model_files st) model_path (inference_engine st)
    end in
  if negb ready then
    (mkServer fs engine (uploads st),
     (Error "Model initialization failed", 500%Z))
  else
    match file with
    | None => (mkServer fs engine (uploads st), (Error "No file provided", 400%Z))
    | Some file =>
        if String.eqb (filename file) "" || negb (allowed_file (filename file))
        then (mkServer fs engine (uploads st), (Error "Invalid file", 400%Z))
        else
          let filepath := upload_path (filename file) in
          let saved := filepath :: uploads st in
          let processed :=
            match engine with
            | Some e =>
                snd (DocumentStructureInference.engine_process_pdf e (content file))
            | None => None
            end in
          match processed with
          | Some result =>
              (mkServer fs engine (remove string_dec filepath saved),
               (Result result, 200%Z))
          | None => (mkServer fs engine saved, (ErrorOfException, 500%Z))
          end
    end.

(** [health_check]: the value of ['model_loaded']. *)
Definition health_check (st : Server) : bool :=
  match inference_engine st with
  | Some _ => true
  | None => false
  end.

End Routes.

(** * Vocabulary of the specification *)

Import PDFFeatureExtractor DocumentStructureInference.

(** [M] is the maximum of the values [l]. *)
Definition is_max (M : Q) (l : list Q) : Prop :=
  Exists (fun x => x == M) l /\ Forall (fun x => x <= M) l.

(** What C7 says of a span [s] and its row [r], [M] being the maximum
    font size of the document. *)
Definition ratio_normalized (M : Q) (s : Span.t) (r : Row) : Prop :=
  0 <= font_size_ratio r <= 1
  /\ (font_size_ratio r == 1 <-> Span.font_size s == M).

(** What C8 says of a span [s] and its row [r]. *)
Definition centered_spec (s : Span.t) (r : Row) : Prop :=
  let x := Span.bbox0 s in
  let w := Span.page_width s in
  x_position r = x
  /\ (is_centered r = 1%Z \/ is_centered r = 0%Z)
  /\ (is_centered r = 1%Z <-> Qabs (x - w / 2) < (1 # 10) * w)
  /\ (0 < w -> x == w / 2 -> is_centered r = 1%Z)
  /\ (0 < w -> x == 0 -> is_centered r = 0%Z).

(** The value of a threshold as a real number. *)
Definition surd_value (t : Num.surd) : R :=
  (Q2R (Num.sbase t) + Q2R (Num.scoef t) * sqrt (Q2R (Num.srad t)))%R.

(** The threshold [mean + k * std] of a feature table. *)
Definition threshold (df : list ARow) (k : Q) : Num.fnum :=
  let sizes := map (fun r : ARow => font_size r) df in
  Num.add_scaled (Num.mean sizes) k (Num.std sizes).

(** The classification rule of the heuristic as the specification words it:
    the first rule that matches decides. *)
Definition rule_class (h1 h2 h3 : Num.fnum) (r : Row) : Z :=
  let bold := (is_bold r =? 1)%Z in
  let uppercase := (is_uppercase r =? 1)%Z in
  if Num.ge (font_size r) h1 && bold then 3%Z
  else if Num.ge (font_size r) h2 && bold then 2%Z
  else if Num.ge (font_size r) h3 && (bold || uppercase) then 1%Z
  else 0%Z.

(** A row of [df] as the heuristic annotates it. *)
Definition heuristic_annotate (df : list ARow) (r : ARow) : ARow :=
  mkARow (row r)
         (rule_class (threshold df (3 # 2)) (threshold df 1) (threshold df (1 # 2)) r)
         1.

(** [a] occurs before [b] in [l]. *)
Definition before_in {A : Type} (a b : A) (l : list A) : Prop :=
  exists l1 l2 l3, l = l1 ++ a :: l2 ++ b :: l3.

(** The reading order of the outline: by page, then from the top. *)
Definition key_le (a b : ARow) : Prop :=
  (page_number a < page_number b)%Z
  \/ (page_number a = page_number b /\ y_position a <= y_position b).

(** Rows that the sort cannot tell apart. *)
Definition same_key (a b : ARow) : bool :=
  (page_number a =? page_number b)%Z && Qeq_bool (y_position a) (y_position b).

(** A row that the classifier holds for a heading, with confidence. *)
Definition classifier_confident (r : ARow) : Prop :=
  In (predicted_class r) [1; 2; 3]%Z
  /\ confidence_threshold < max_probability r.

(** The same as a test. *)
Definition classifier_confidentb (r : ARow) : bool :=
  isin [1; 2; 3]%Z (predicted_class r)
  && Num.Qlt_bool confidence_threshold (max_probability r).

(** [r] is the first row of [l] with the largest font size. *)
Definition first_largest (r : ARow) (l : list ARow) : Prop :=
  exists before after,
    l = before ++ r :: after
    /\ Forall (fun x : ARow => font_size x < font_size r) before
    /\ Forall (fun x : ARow => font_size x <= font_size r) after.

(** The row is on page 1. *)
Definition on_first_page (r : ARow) : bool := (page_number r =? 1)%Z.

(** The classifier holds the row for an H1, with confidence. *)
Definition h1_confidentb (r : ARow) : bool :=
  (predicted_class r =? 3)%Z
  && Num.Qlt_bool confidence_threshold (max_probability r).

(** The spans of page 1 that the classifier holds for an H1, with
    confidence, in input order. *)
Definition title_candidates (df : list ARow) : list ARow :=
  filter (fun r => on_first_page r && h1_confidentb r) df.

(** A bold row of the largest size [M]. *)
Definition bold_largest (M : Q) (r : ARow) : Prop :=
  is_bold r = 1%Z /\ font_size r == M.

(** [r] is the first row of [l] that satisfies [P]. *)
Definition first_such (P : ARow -> Prop) (r : ARow) (l : list ARow) : Prop :=
  exists before after,
    l = before ++ r :: after /\ P r /\ Forall (fun x => ~ P x) before.

(** What C6 says of the spans of page 1 and the title. *)
Definition fallback_title_spec (first_page : list ARow) (title : string) : Prop :=
  (first_page = [] -> title = EmptyString)
  /\ (forall M, is_max M (map (fun r : ARow => font_size r) first_page) ->
        (Exists (bold_largest M) first_page ->
         exists r, first_such (bold_largest M) r first_page /\ title = text r)
        /\ (~ Exists (bold_largest M) first_page ->
            exists r, first_such (fun x => font_size x == M) r first_page
                      /\ title = text r)).

(** The flag columns of a row hold 0 or 1. *)
Definition flag (n : Z) : Prop := n = 0%Z \/ n = 1%Z.

(** What the rows of the feature table keep of their spans. *)
Definition row_of_span (s : Span.t) (r : Row) : Prop :=
  text r = Span.text s
  /\ page_number r = Span.page_number s
  /\ font_size r = Span.font_size s
  /\ (is_bold r = 1%Z <-> Z.testbit (Span.flags s) 4 = true)
  /\ (is_italic r = 1%Z <-> Z.testbit (Span.flags s) 1 = true)
  /\ flag (is_bold r) /\ flag (is_italic r) /\ flag (is_uppercase r)
  /\ flag (is_title_case r) /\ flag (is_centered r)
  /\ flag (has_numbers r) /\ flag (starts_with_number r).

(** The counts of a row are consistent with one another. *)
Definition counts_consistent (r : Row) : Prop :=
  (0 <= word_count r <= text_length r)%Z
  /\ (starts_with_number r = 1%Z -> has_numbers r = 1%Z)
  /\ (has_numbers r = 1%Z -> 1 <= word_count r)%Z
  /\ (is_uppercase r = 1%Z -> 1 <= word_count r)%Z
  /\ (is_title_case r = 1%Z -> 1 <= word_count r)%Z.

(** A span as [extract_text_spans] delivers it from a document of [n]
    pages: its text is not empty and has no whitespace at either end, and
    its page number is one of the document. *)
Definition extracted_span (n : Z) (s : Span.t) : Prop :=
  Span.text s <> EmptyString
  /\ PyStr.strip (PyStr.chars (Span.text s)) = PyStr.chars (Span.text s)
  /\ (1 <= Span.page_number s <= n)%Z.

(** The span lies on its page, vertically. *)
Definition on_page (s : Span.t) : Prop :=
  0 <= Span.bbox1 s <= Span.page_height s.

(** The text of the row begins with a digit. *)
Definition begins_with_digit (r : Row) : Prop :=
  exists c rest, PyStr.chars (text r) = c :: rest /\ PyStr.isdigit_char c = true.

(** A row of a document that was read from a file: it has at least one
    character and one word, and [starts_with_number] tells whether its first
    character is a digit. *)
Definition row_of_extracted_span (r : Row) : Prop :=
  (1 <= word_count r <= text_length r)%Z
  /\ (starts_with_number r = 1%Z <-> begins_with_digit r).

(** The answers of the classifier fit a table of [n] rows: one class and one
    non-empty vector of probabilities per row. *)
Definition well_shaped (n : nat) (preds : list Z) (probs : list (list Q)) : Prop :=
  List.length preds = n /\ List.length probs = n /\ Forall (fun p => p <> []) probs.

(** The heading [h] is made of the text and the page of the row [r], with
    one of the three levels. *)
Definition heading_from (r : Row) (h : Heading) : Prop :=
  htext h = text r /\ page h = page_number r
  /\ In (level h) ["H1"; "H2"; "H3"]%string.

(** The heading [h] is made of the text and the page of the span [s]. *)
Definition heading_from_span (s : Span.t) (h : Heading) : Prop :=
  htext h = Span.text s /\ page h = Span.page_number s
  /\ In (level h) ["H1"; "H2"; "H3"]%string.

(** What a result owes to the spans of its document, whatever the
    classifier answered: the outline is made, entry by entry, of spans picked
    from the document, each at most once ([picks] is a selection of the
    spans, in some order). *)
Definition result_from_spans (spans : list Span.t) (result : DocumentResult) : Prop :=
  (exists mask picks,
      Permutation (DF.select spans mask) picks
      /\ Forall2 heading_from_span picks (outline result))
  /\ (List.length (outline result) <= List.length spans)%nat
  /\ StronglySorted Z.le (map page (outline result))
  /\ (title result = EmptyString
      \/ exists s, In s spans /\ Span.page_number s = 1%Z
                   /\ title result = Span.text s).



(** The entry of a document in the dictionary of a batch, by itself. *)
Definition batch_entry (model : Classifier) (pdf : option (list Fitz.Page))
  : BatchEntry :=
  match snd (process_pdf_file model pdf) with
  | Some result => Processed result
  | None => Failed
  end.

(** The JSON file of a document in a batch, by itself: none if processing
    it raised. *)
Definition batch_output (model : Classifier) (stem : string -> string)
           (pdf_file : string * option (list Fitz.Page))
  : list (string * DocumentResult) :=
  match snd (process_pdf_file model (snd pdf_file)) with
  | Some result => [((stem (fst pdf_file) ++ ".json")%string, result)]
  | None => []
  end.

(** A page without text: its blocks are images, or their spans hold only
    whitespace. *)
Definition blank_page (page : Fitz.Page) : Prop :=
  Forall
    (fun block =>
       match Fitz.lines block with
       | None => True
       | Some lines =>
           Forall
             (fun line =>
                Forall (fun span => PyStr.strip (PyStr.chars (Fitz.text span)) = [])
                       (Fitz.spans line))
             lines
       end)
    (Fitz.blocks page).

(** The engine that [init] builds from a model file holding the model [m]
    and the class names [names]. *)
Definition engine_of (m names : Joblib.PyValue) : Engine :=
  mkEngine m names confidence_threshold.

(** What [init_model] guarantees, for the file system [fs] and the engine
    [engine] before the call and the triple it returns. *)
Definition init_model_post (fs : Joblib.Store) (model_path : string)
           (engine : option Engine)
           (out : Joblib.Store * option Engine * bool) : Prop :=
  let '(fs', engine', ok) := out in
  (ok = true -> engine' <> None /\ engine' = init fs' model_path)
  /\ (ok = false -> engine' = engine)
  /\ (Dict.get fs model_path <> None -> fs' = fs)
  /\ (forall p, p <> model_path -> Joblib.load fs' p = Joblib.load fs p).

(** What a request to [api_process] does, for the state [st] before it, the
    file of the request and the outcome [(st', (body, status))]. *)
Definition api_process_post (upload_path : string -> string) (st : Routes.Server)
           (file : option Routes.Upload)
           (out : Routes.Server * (Routes.Body * Z)) : Prop :=
  let '(st', (body, status)) := out in
  (status = 200%Z ->
   exists f e result,
     file = Some f /\ Routes.allowed_file (Routes.filename f) = true
     /\ Routes.inference_engine st' = Some e
     /\ snd (engine_process_pdf e (Routes.content f)) = Some result
     /\ body = Routes.Result result
     /\ ~ In (upload_path (Routes.filename f)) (Routes.uploads st'))
  /\ (status = 400%Z ->
      Routes.uploads st' = Routes.uploads st
      /\ ((file = None /\ body = Routes.Error "No file provided")
          \/ (exists f, file = Some f
                        /\ Routes.allowed_file (Routes.filename f) = false
                        /\ body = Routes.Error "Invalid file")))
  /\ (status = 500%Z -> Routes.inference_engine st' <> None ->
      exists f e,
        file = Some f /\ Routes.allowed_file (Routes.filename f) = true
        /\ Routes.inference_engine st' = Some e
        /\ snd (engine_process_pdf e (Routes.content f)) = None
        /\ body = Routes.ErrorOfException
        /\ In (upload_path (Routes.filename f)) (Routes.uploads st'))
  /\ (Routes.inference_engine st <> None ->
      Routes.inference_engine st' = Routes.inference_engine st
      /\ Routes.model_files st' = Routes.model_files st)
  /\ (Routes.health_check st' = false ->
      status = 500%Z /\ body = Routes.Error "Model initialization failed"
      /\ Routes.uploads st' = Routes.uploads st)
  /\ (forall f e,
        file = Some f -> Routes.allowed_file (Routes.filename f) = true ->
        Routes.inference_engine st' = Some e ->
        match snd (engine_process_pdf e (Routes.content f)) with
        | Some result => status = 200%Z /\ body = Routes.Result result
        | None => status = 500%Z /\ body = Routes.ErrorOfException
        end).

(** No two distinct rows of [l] have the same page and the same vertical
    position. *)
Definition distinct_keys (l : list ARow) : Prop :=
  forall a b, In a l -> In b l -> same_key a b = true -> a = b.

(** A classifier that checks what it is given, as a trained model does: it
    raises unless the matrix has [n] rows with one entry per name of
    [feature_names]. *)
Definition schema_checked (n : nat) (model : Classifier) : Classifier :=
  let fits (X : list (list Q)) :=
    (List.length X =? n)%nat
    && forallb (fun v => (List.length v =? List.length feature_names)%nat) X in
  {| predict := fun X => if fits X then predict model X else None;
     predict_proba := fun X => if fits X then predict_proba model X else None |}.

(** The threshold [mean + k * std] of a table in the arithmetic [A]. *)
Definition threshold_in (A : FloatArith.Arith) (df : list ARow) (k : Q)
  : FloatArith.F A :=
  let sizes := map (fun r : ARow => font_size r) df in
  FloatArith.add A (FloatArith.mean A sizes)
                 (FloatArith.mul A (FloatArith.const A k) (FloatArith.std A sizes)).

(** The class of a row of the table [df] by the rules of the specification,
    the first rule that matches deciding: H1 for a bold row at or above
    [mean + 1.5 std], else H2 for a bold row at or above [mean + 1.0 std],
    else H3 for a bold or uppercase row at or above [mean + 0.5 std], else
    body. *)
Definition rule_class_in (A : FloatArith.Arith) (df : list ARow) (r : Row) : Z :=
  let bold := (is_bold r =? 1)%Z in
  let uppercase := (is_uppercase r =? 1)%Z in
  if FloatArith.ge A (font_size r) (threshold_in A df (3 # 2)) && bold then 3%Z
  else if FloatArith.ge A (font_size r) (threshold_in A df 1) && bold then 2%Z
  else if FloatArith.ge A (font_size r) (threshold_in A df (1 # 2))
          && (bold || uppercase) then 1%Z
  else 0%Z.

(** A row of [df] with the class of the rules and full confidence. *)
Definition heuristic_annotate_in (A : FloatArith.Arith) (df : list ARow) (r : ARow)
  : ARow :=
  mkARow (row r) (rule_class_in A df r) 1.

(** The exact arithmetic of [Num]: a mean is a rational, a standard
    deviation a square root, and the left operand of a product or a sum a
    rational. *)
Definition exact_arith : FloatArith.Arith :=
  {| FloatArith.F := Num.fnum;
     FloatArith.mean := fun l => option_map (fun m => Num.mkSurd m 0 0) (Num.mean l);
     FloatArith.std := Num.std;
     FloatArith.const := fun k => Some (Num.mkSurd k 0 0);
     FloatArith.mul := fun a b =>
       match a, b with
       | Some k, Some s =>
           Some (Num.mkSurd (Num.sbase k * Num.sbase s) (Num.sbase k * Num.scoef s)
                            (Num.srad s))
       | _, _ => None
       end;
     FloatArith.add := fun a b =>
       match a, b with
       | Some m, Some s =>
           Some (Num.mkSurd (Num.sbase m + Num.sbase s) (Num.scoef s) (Num.srad s))
       | _, _ => None
       end;
     FloatArith.ge := Num.ge |}.

(** The double nearest to a rational. *)
Definition Q2float (q : Q) : float :=
  let n := PrimFloat.of_uint63 (Uint63.of_Z (Z.abs (Qnum q))) in
  let d := PrimFloat.of_uint63 (Uint63.of_Z (Zpos (Qden q))) in
  if (Qnum q <? 0)%Z then PrimFloat.opp (PrimFloat.div n d) else PrimFloat.div n d.

(** An arithmetic of doubles: the operations of IEEE 754 on binary64, with
    sums taken from left to right.  It serves as an example of a rounded
    arithmetic; the order in which pandas adds is not modelled. *)
Definition double_sum (l : list float) : float :=
  fold_left PrimFloat.add l PrimFloat.zero.

Definition double_mean (l : list Q) : float :=
  PrimFloat.div (double_sum (map Q2float l))
                (PrimFloat.of_uint63 (Uint63.of_Z (Z.of_nat (List.length l)))).

Definition double_std (l : list Q) : float :=
  if (List.length l <? 2)%nat then PrimFloat.nan
  else
    let m := double_mean l in
    let squares :=
      map (fun x => PrimFloat.mul (PrimFloat.sub (Q2float x) m)
                                  (PrimFloat.sub (Q2float x) m)) l in
    PrimFloat.sqrt
      (PrimFloat.div (double_sum squares)
                     (PrimFloat.of_uint63
                        (Uint63.of_Z (Z.of_nat (List.length l) - 1)))).

Definition double_arith : FloatArith.Arith :=
  {| FloatArith.F := float;
     FloatArith.mean := double_mean;
     FloatArith.std := double_std;
     FloatArith.const := Q2float;
     FloatArith.mul := PrimFloat.mul;
     FloatArith.add := PrimFloat.add;
     FloatArith.ge := fun x t => PrimFloat.leb t (Q2float x) |}.

(** The record of a span keeps its text and its page number under their
    names. *)
Definition record_of_span (s : Span.t) (record : list (string * Cell)) : Prop :=
  Dict.get record "text" = Some (CStr (Span.text s))
  /\ Dict.get record "page_number" = Some (CNum (inject_Z (Span.page_number s))).

(** * Sample documents *)

(** A centred 24 pt bold heading and an 11 pt body line on a US-letter
    page. *)
Definition sample_heading : Span.t :=
  Span.mk "Executive Summary" 24 "Helvetica-Bold" 16 (306, 72, 500, 100) 1 612 792.

(** The body line. *)
Definition sample_body : Span.t :=
  Span.mk "lorem ipsum" 11 "Helvetica" 0 (0, 120, 500, 133) 1 612 792.

(** A classifier that raises on every call. *)
Definition failing_model : Classifier :=
  {| predict := fun _ => None; predict_proba := fun _ => None |}.

(** The scenario of the specification: one page, a bold 24 pt heading and
    five 11 pt body lines, none of them recognised by the classifier. *)
Definition sample_table : list ARow :=
  map (fun r => mkARow r 0 (1 # 2))
      (calculate_features (sample_heading :: repeat sample_body 5)).

(** A single bold, uppercase 24 pt row, held for body text by the
    classifier. *)
Definition lone_row : ARow :=
  mkARow (mkRow "TITLE" 24 1 0 306 72 5 1 0 1 28 1 1 (72 # 792) 1 0 0) 0 (9 # 10).

(** A heading candidate: its text, class, page and vertical position. *)
Definition cand (t : string) (c pg : Z) (y : Q) : ARow :=
  mkARow (mkRow t 14 1 0 72 y 1 0 0 0 14 pg (14 # 24) 0 1 0 0) c (9 # 10).

(** Four candidates, given out of order, two of them with the same page and
    the same position. *)
Definition sample_candidates : list ARow :=
  [cand "d" 1 2 40; cand "b" 2 1 90; cand "c" 7 1 90; cand "a" 3 1 (25 # 2)].

(** A table in which the classifier recognises one body line as an H2,
    while the heuristic alone would pick the 24 pt heading. *)
Definition mixed_table : list ARow :=
  match sample_table with
  | r0 :: r1 :: rest => r0 :: mkARow (row r1) 2 (61 # 100) :: rest
  | _ => []
  end.

(** A row for the tables of the title resolver. *)
Definition titled (t : string) (size : Q) (bold pg c : Z) (p : Q) : ARow :=
  mkARow (mkRow t size bold 0 72 72 1 0 1 0 14 pg 1 (1 # 10) 1 0 0) c p.

(** A table with two confident H1 spans of the same, largest size on page
    1, a larger one on page 2, and a larger one on page 1 whose confidence is
    exactly the threshold. *)
Definition title_table : list ARow :=
  [ titled "body" 11 0 1 0 (99 # 100);
    titled "First" 24 0 1 3 (95 # 100);
    titled "Second" 24 1 1 3 (9 # 10);
    titled "Third" 30 1 2 3 (95 # 100);
    titled "Fourth" 30 1 1 3 (6 # 10) ].

(** A document of two pages: a heading, a span of blanks and a body line on
    the first, an image block and a numbered line on the second. *)
Definition sample_pdf : list Fitz.Page :=
  [ Fitz.mkPage 612 792
      [ Fitz.mkBlock
          (Some [ Fitz.mkLine
                    [ Fitz.mkSpan " Executive Summary " 24 "Helvetica-Bold" 16
                                  (306, 72, 500, 100);
                      Fitz.mkSpan "   " 11 "Helvetica" 0 (0, 72, 10, 85) ];
                  Fitz.mkLine
                    [ Fitz.mkSpan "lorem ipsum" 11 "Helvetica" 0
                                  (72, 120, 500, 133) ] ]) ];
    Fitz.mkPage 612 792
      [ Fitz.mkBlock None;
        Fitz.mkBlock
          (Some [ Fitz.mkLine
                    [ Fitz.mkSpan "2 Methods" 11 "Helvetica" 0
                                  (72, 72, 500, 85) ] ]) ] ].

(** A classifier that holds every row for body text, with certainty. *)
Definition body_model : Classifier :=
  {| predict := fun X => Some (map (fun _ => 0%Z) X);
     predict_proba := fun X => Some (map (fun _ => [1; 0; 0; 0]) X) |}.

(** Two bold rows of the same size, which the heuristic both holds for
    headings. *)
Definition twin_table : list ARow :=
  [ titled "One" 12 1 1 0 (1 # 2); titled "Two" 12 1 1 0 (1 # 2) ].

(** A scanned document: one page with an image and a span of blanks. *)
Definition scanned_pdf : list Fitz.Page :=
  [ Fitz.mkPage 612 792
      [ Fitz.mkBlock None;
        Fitz.mkBlock
          (Some [ Fitz.mkLine [ Fitz.mkSpan "  " 11 "Helvetica" 0 (0, 0, 5, 11) ] ]) ] ].

(** A folder of three files: a document with text, a file that does not
    open, and a scanned document. *)
Definition sample_folder : list (string * option (list Fitz.Page)) :=
  [ ("report.pdf"%string, Some sample_pdf);
    ("broken.pdf"%string, None);
    ("scan.pdf"%string, Some scanned_pdf) ].

(** A server whose engine is loaded with [body_model] and whose upload
    folder is empty. *)
Definition ready_server : Routes.Server :=
  Routes.mkServer [] (Some (engine_of (Joblib.VModel body_model) Joblib.VNone)) [].

(** Three confident candidates on distinct positions, out of order. *)
Definition distinct_candidates : list ARow :=
  [cand "d" 1 2 40; cand "b" 2 1 90; cand "a" 3 1 (25 # 2)].

(** Three bold rows of size 10.8, the double nearest to it. *)
Definition tenths_table : list ARow :=
  let size := 6079859496950170 # 562949953421312 in
  [ titled "One" size 1 1 0 (1 # 2); titled "Two" size 1 1 0 (1 # 2);
    titled "Three" size 1 1 0 (1 # 2) ].

(** * Properties *)

(** ** Frames as lists: masks are maps, selection is [filter] *)

Section FrameFacts.

Context {A : Type}.

Lemma select_map (p : A -> bool) (df : list A) :
  DF.select df (map p df) = filter p df.
Proof.
  induction df as [|r df IH]; simpl; [reflexivity|].
  rewrite IH. reflexivity.
Qed.

Lemma mand_map (p q : A -> bool) (df : list A) :
  DF.mand (map p df) (map q df) = map (fun r => p r && q r) df.
Proof.
  induction df as [|r df IH]; simpl; [reflexivity|].
  now rewrite IH.
Qed.

Lemma mor_map (p q : A -> bool) (df : list A) :
  DF.mor (map p df) (map q df) = map (fun r => p r || q r) df.
Proof.
  induction df as [|r df IH]; simpl; [reflexivity|].
  now rewrite IH.
Qed.

Lemma empty_true (df : list A) : DF.empty df = true <-> df = [].
Proof. destruct df; simpl; split; congruence. Qed.

Lemma empty_false (df : list A) : DF.empty df = false <-> df <> [].
Proof. destruct df; simpl; split; congruence. Qed.

Lemma np_where_map (c : A -> bool) (x : Z) (f : A -> Z) (df : list A) :
  DF.np_where (map c df) (repeat x (List.length df)) (map f df)
  = map (fun r => if c r then x else f r) df.
Proof.
  induction df as [|r df IH]; simpl; [reflexivity|].
  now rewrite IH.
Qed.

Lemma repeat_map (x : Z) (df : list A) :
  repeat x (List.length df) = map (fun _ => x) df.
Proof.
  induction df as [|r df IH]; simpl; [reflexivity|].
  now rewrite IH.
Qed.

(** A non-empty filter has a first hit: everything before it is rejected. *)
Lemma filter_first (p : A -> bool) (df : list A) (r : A) (rest : list A) :
  filter p df = r :: rest ->
  exists before after,
    df = before ++ r :: after /\ p r = true
    /\ Forall (fun x => p x = false) before.
Proof.
  induction df as [|x df IH]; simpl; [discriminate|].
  destruct (p x) eqn:Hx.
  - intros [= -> <-]. exists [], df. repeat split; auto.
  - intros H. destruct (IH H) as (b & a & -> & Hr & Hb).
    exists (x :: b), a. repeat split; auto.
Qed.

Lemma filter_nil_iff (p : A -> bool) (df : list A) :
  filter p df = [] <-> Forall (fun x => p x = false) df.
Proof.
  induction df as [|x df IH]; simpl.
  - split; constructor.
  - destruct (p x) eqn:Hx; split; intros H.
    + discriminate.
    + inversion H; congruence.
    + constructor; [assumption | now apply IH].
    + inversion H; now apply IH.
Qed.

End FrameFacts.

(** ** Arithmetic of the extractor *)

Lemma Qlt_bool_iff (x y : Q) : Num.Qlt_bool x y = true <-> x < y.
Proof.
  unfold Num.Qlt_bool. rewrite negb_true_iff.
  split; intros H.
  - apply Qnot_le_lt. intros Hle. apply Qle_bool_iff in Hle. congruence.
  - destruct (Qle_bool y x) eqn:E; [|reflexivity].
    apply Qle_bool_iff in E. apply Qlt_not_le in H. contradiction.
Qed.

Lemma Qlt_bool_false_iff (x y : Q) : Num.Qlt_bool x y = false <-> y <= x.
Proof.
  unfold Num.Qlt_bool. rewrite negb_false_iff. apply Qle_bool_iff.
Qed.

Lemma max_from_bounds (l : list Q) (cur : Q) :
  cur <= Num.max_from cur l /\ Forall (fun x => x <= Num.max_from cur l) l.
Proof.
  revert cur. induction l as [|x l IH]; intros cur; simpl.
  - split; [apply Qle_refl | constructor].
  - destruct (Num.Qlt_bool cur x) eqn:E.
    + destruct (IH x) as [H1 H2]. apply Qlt_bool_iff in E.
      split; [|constructor; assumption].
      apply Qle_trans with x; [apply Qlt_le_weak|]; assumption.
    + destruct (IH cur) as [H1 H2]. apply Qlt_bool_false_iff in E.
      split; [assumption|]. constructor; [|assumption].
      apply Qle_trans with cur; assumption.
Qed.

Lemma max_from_In (l : list Q) (cur : Q) : In (Num.max_from cur l) (cur :: l).
Proof.
  revert cur. induction l as [|x l IH]; intros cur; simpl.
  - now left.
  - destruct (Num.Qlt_bool cur x).
    + right. apply IH.
    + destruct (IH cur) as [H|H]; [now left | right; now right].
Qed.

Lemma max_is_max (l : list Q) (m : Q) : Num.max l = Some m -> is_max m l.
Proof.
  destruct l as [|x l]; simpl; [discriminate|].
  intros [= <-]. split.
  - apply Exists_exists. exists (Num.max_from x l).
    split; [apply max_from_In | apply Qeq_refl].
  - destruct (max_from_bounds l x) as [H1 H2]. constructor; assumption.
Qed.

Lemma max_some (l : list Q) : l <> [] -> exists m, Num.max l = Some m.
Proof. destruct l as [|x l]; [congruence|]. intros _. simpl. eauto. Qed.

(** Two maxima of the same values are equal. *)
Lemma is_max_unique (l : list Q) (m m' : Q) : is_max m l -> is_max m' l -> m == m'.
Proof.
  intros [E1 B1] [E2 B2].
  apply Exists_exists in E1. destruct E1 as (x & Hx & Ex).
  apply Exists_exists in E2. destruct E2 as (y & Hy & Ey).
  rewrite Forall_forall in B1, B2.
  apply Qle_antisym.
  - rewrite <- Ex. now apply B2.
  - rewrite <- Ey. now apply B1.
Qed.

Lemma Forall2_map_self {A B : Type} (P : A -> B -> Prop) (f : A -> B) (l : list A) :
  (forall x, In x l -> P x (f x)) -> Forall2 P l (map f l).
Proof.
  induction l as [|x l IH]; intros H; simpl; constructor.
  - apply H. now left.
  - apply IH. intros y Hy. apply H. now right.
Qed.

Lemma calculate_features_map (spans : list Span.t) :
  calculate_features spans
  = map (span_features (max_font_size spans)) spans.
Proof. destruct spans; reflexivity. Qed.

Lemma max_font_size_is_max (spans : list Span.t) :
  spans <> [] ->
  is_max (max_font_size spans) (map Span.font_size spans).
Proof.
  intros Hne. unfold max_font_size.
  destruct (Num.max (map Span.font_size spans)) as [m|] eqn:E.
  - now apply max_is_max.
  - destruct spans; [congruence | discriminate].
Qed.

Lemma Qdiv_unit (x m : Q) : 0 < x -> x <= m -> 0 <= x / m <= 1.
Proof.
  intros Hx Hm.
  assert (Hpos : 0 < m) by (apply Qlt_le_trans with x; assumption).
  split.
  - apply Qle_shift_div_l; [assumption|]. lra.
  - apply Qle_shift_div_r; [assumption|]. lra.
Qed.

Lemma Qdiv_one_iff (x m : Q) : 0 < m -> (x / m == 1 <-> x == m).
Proof.
  intros Hpos.
  assert (Hnz : ~ m == 0) by lra.
  split; intros H.
  - rewrite <- (Qmult_div_r x m Hnz). rewrite H. lra.
  - rewrite H. now apply Qmult_inv_r.
Qed.

Lemma int_of_bool_1 (b : bool) : int_of_bool b = 1%Z <-> b = true.
Proof. destruct b; simpl; split; congruence. Qed.

Lemma int_of_bool_0 (b : bool) : int_of_bool b = 0%Z <-> b = false.
Proof. destruct b; simpl; split; congruence. Qed.

(** ** The feature extractor *)

(** C7 (normalization bounds).  For a non-empty sequence of spans with
    positive font sizes, whatever the maximum [M] of the font sizes of the
    document, the [font_size_ratio] of every span lies in [[0, 1]] and is 1
    exactly for the spans whose font size is [M].  Besides, for any
    sequence, [font_size_ratio] is 0 on every row when the maximum computed
    by the extractor is not positive, and [position_ratio] is 0 on the row of
    every span whose [page_height] is not positive. *)
Theorem C7_normalization_bounds (spans : list Span.t) :
  (spans <> [] ->
   Forall (fun s => 0 < Span.font_size s) spans ->
   forall M, is_max M (map Span.font_size spans) ->
   Forall2 (ratio_normalized M) spans (calculate_features spans))
  /\ (max_font_size spans <= 0 ->
      Forall (fun r => font_size_ratio r = 0)
             (calculate_features spans))
  /\ Forall2 (fun s r => Span.page_height s <= 0 -> position_ratio r = 0)
             spans (calculate_features spans).
Proof.
  rewrite calculate_features_map. repeat split.
  - intros Hne Hpos M HM.
    pose proof (max_font_size_is_max spans Hne) as Hmax.
    pose proof (is_max_unique _ _ _ Hmax HM) as HeqM.
    apply Forall2_map_self. intros s Hs.
    rewrite Forall_forall in Hpos. specialize (Hpos s Hs).
    destruct Hmax as [_ Hub]. rewrite Forall_forall in Hub.
    assert (Hle : Span.font_size s <= max_font_size spans)
      by (apply Hub; now apply in_map).
    assert (Hmpos : 0 < max_font_size spans)
      by (apply Qlt_le_trans with (Span.font_size s); assumption).
    unfold ratio_normalized, span_features; simpl.
    apply Qlt_bool_iff in Hmpos as Hb. rewrite Hb.
    split; [now apply Qdiv_unit|].
    rewrite (Qdiv_one_iff _ _ Hmpos). rewrite HeqM. reflexivity.
  - intros Hle. apply Forall_forall. intros r Hr.
    apply in_map_iff in Hr. destruct Hr as (s & <- & _).
    unfold span_features; simpl.
    apply Qlt_bool_false_iff in Hle. now rewrite Hle.
  - apply Forall2_map_self. intros s _ Hle.
    unfold span_features; simpl.
    apply Qlt_bool_false_iff in Hle. now rewrite Hle.
Qed.

Lemma C7_normalization_bounds_witness :
  Forall2 (ratio_normalized 24) [sample_heading; sample_body]
          (calculate_features [sample_heading; sample_body]).
Proof.
  apply (proj1 (C7_normalization_bounds [sample_heading; sample_body])).
  - discriminate.
  - repeat constructor.
  - split.
    + apply Exists_cons_hd. reflexivity.
    + repeat constructor; simpl; discriminate.
Defined.

(** C8 (is_centered boundary).  On every row of the feature table,
    [is_centered] is the flag of [|x_position - page_width/2| < 0.1 *
    page_width]; hence, for a positive page width, a span at
    [x = page_width/2] is centered and a span at [x = 0] is not. *)
Theorem C8_is_centered_boundary (spans : list Span.t) :
  Forall2 centered_spec spans (calculate_features spans).
Proof.
  rewrite calculate_features_map. apply Forall2_map_self. intros s _.
  unfold centered_spec, span_features.
  cbv zeta. cbn [x_position is_centered].
  set (x := Span.bbox0 s). set (w := Span.page_width s).
  assert (Hiff : int_of_bool (Num.Qlt_bool (Qabs (x - w / 2)) (w * (1 # 10))) = 1%Z
                 <-> Qabs (x - w / 2) < (1 # 10) * w).
  { rewrite int_of_bool_1, Qlt_bool_iff.
    assert (E : w * (1 # 10) == (1 # 10) * w) by ring.
    rewrite E. reflexivity. }
  split; [reflexivity|]. split.
  { destruct (Num.Qlt_bool _ _); simpl; auto. }
  split; [exact Hiff|]. split.
  - intros Hw Hx. apply Hiff.
    assert (E : x - w / 2 == 0) by (rewrite Hx; ring).
    rewrite E. simpl. lra.
  - intros Hw Hx. apply int_of_bool_0. apply Qlt_bool_false_iff.
    assert (E : x - w / 2 == - (w / 2)) by (rewrite Hx; ring).
    rewrite E, Qabs_opp.
    assert (Hh : 0 <= w / 2) by (apply Qle_shift_div_l; lra).
    rewrite (Qabs_pos _ Hh).
    assert (E2 : w / 2 == w * (1 # 2)) by (unfold Qdiv; reflexivity).
    rewrite E2. lra.
Qed.

Lemma C8_is_centered_boundary_witness :
  Forall2 centered_spec [sample_heading; sample_body]
          (calculate_features [sample_heading; sample_body]).
Proof. exact (C8_is_centered_boundary [sample_heading; sample_body]). Defined.

(** The heading of [sample_heading] sits at the middle of the page and is
    centered; [sample_body] starts at the left edge and is not. *)
Example sample_centered :
  map is_centered (calculate_features [sample_heading; sample_body])
  = [1; 0]%Z.
Proof. reflexivity. Qed.

(** ** The pipeline on an empty document *)

(** C5 (empty document).  With no span the feature table is empty, and
    [process_pdf] returns the result with the empty title and the empty
    outline, without an exception and with an empty trace of calls: neither
    the classifier nor a resolver is invoked, whatever the classifier is. *)
Theorem C5_empty_document (model : Classifier) :
  calculate_features [] = []
  /\ process_pdf model []
     = ([], Some {| title := EmptyString; outline := [] |}).
Proof. split; reflexivity. Qed.

(** With such a classifier a document that has a span fails at the first
    call, so the empty trace above is not an artefact of the trace. *)
Example failing_model_raises :
  process_pdf failing_model [sample_heading] = ([CallPredict], None).
Proof. reflexivity. Qed.

(** ** Comparison against a threshold with a square root *)

Lemma real_ge_sq_nonneg (C S D : R) :
  (0 <= C -> 0 <= S -> (0 <= D /\ C * C * (S * S) <= D * D <-> C * S <= D))%R.
Proof.
  intros HC HS. split.
  - intros [HD H].
    destruct (Rle_or_lt (C * S) D) as [|Hlt]; [assumption|]. nra.
  - intros H. assert (0 <= C * S)%R by nra. split; nra.
Qed.

Lemma real_ge_sq_neg (C S D : R) :
  (C < 0 -> 0 <= S -> (0 <= D \/ D * D <= C * C * (S * S) <-> C * S <= D))%R.
Proof.
  intros HC HS. assert (C * S <= 0)%R by nra. split.
  - intros [HD|H']; [nra|].
    destruct (Rle_or_lt (C * S) D) as [|Hlt]; [assumption|]. nra.
  - intros H'. destruct (Rle_or_lt 0 D) as [|Hlt]; [now left | right]. nra.
Qed.

Lemma Qle_bool_real (x y : Q) : Qle_bool x y = true <-> (Q2R x <= Q2R y)%R.
Proof.
  rewrite Qle_bool_iff. split; [apply Qle_Rle | apply Rle_Qle].
Qed.

(** [Num.Qge_surd] decides the comparison of real numbers it stands for. *)
Lemma Qge_surd_real (x : Q) (t : Num.surd) :
  0 <= Num.srad t ->
  (Num.Qge_surd x t = true <-> (surd_value t <= Q2R x)%R).
Proof.
  intros Hrad. unfold Num.Qge_surd, surd_value.
  destruct t as [b c v]; simpl in *.
  assert (HS : (0 <= sqrt (Q2R v))%R) by apply sqrt_pos.
  assert (Hv : (0 <= Q2R v)%R).
  { replace 0%R with (Q2R 0) by (unfold Q2R; simpl; field). now apply Qle_Rle. }
  assert (HSS : (sqrt (Q2R v) * sqrt (Q2R v) = Q2R v)%R) by now apply sqrt_sqrt.
  set (S := sqrt (Q2R v)) in *.
  assert (H0 : Q2R 0 = 0%R) by (unfold Q2R; simpl; field).
  destruct (Qle_bool 0 c) eqn:Ec.
  - apply Qle_bool_real in Ec. rewrite H0 in Ec.
    rewrite andb_true_iff, !Qle_bool_real.
    rewrite !Q2R_mult, !Q2R_minus, H0, <- HSS.
    rewrite (real_ge_sq_nonneg _ _ (Q2R x - Q2R b) Ec HS). split; intros; lra.
  - assert (Hc : (Q2R c < 0)%R).
    { apply Rnot_le_lt. intros Hle. rewrite <- H0 in Hle.
      apply Qle_bool_real in Hle. congruence. }
    rewrite orb_true_iff, !Qle_bool_real.
    rewrite !Q2R_mult, !Q2R_minus, H0, <- HSS.
    rewrite (real_ge_sq_neg _ _ (Q2R x - Q2R b) Hc HS). split; intros; lra.
Qed.

Lemma Qsquare_nonneg (d : Q) : 0 <= d * d.
Proof.
  destruct (Qlt_le_dec d 0) as [Hneg|Hpos].
  - setoid_replace (d * d) with ((- d) * (- d)) by ring.
    apply Qmult_le_0_compat; lra.
  - now apply Qmult_le_0_compat.
Qed.

Lemma Qsum_squares_nonneg (m : Q) (l : list Q) :
  0 <= Num.Qsum (map (fun x => (x - m) * (x - m)) l).
Proof.
  induction l as [|x l IH]; simpl; [apply Qle_refl|].
  pose proof (Qsquare_nonneg (x - m)). lra.
Qed.

Lemma var_nonneg (l : list Q) (v : Q) : Num.var l = Some v -> 0 <= v.
Proof.
  unfold Num.var. destruct (Num.mean l) as [m|]; [|discriminate].
  destruct (List.length l <? 2)%nat eqn:E; [discriminate|].
  intros [= <-]. apply Nat.ltb_ge in E.
  apply Qle_shift_div_l; [|pose proof (Qsum_squares_nonneg m l); lra].
  unfold Num.Qlen.
  assert (H : inject_Z 2 <= inject_Z (Z.of_nat (List.length l))).
  { rewrite <- Zle_Qle. lia. }
  change (inject_Z 2) with 2 in H. lra.
Qed.

(** The thresholds of the heading heuristic are [mean + k * sqrt var]; with
    at least two rows, comparing a font size against one of them is the
    comparison of the real numbers. *)
Lemma threshold_real (l : list Q) (m v k x : Q) :
  Num.mean l = Some m -> Num.var l = Some v ->
  (Num.ge x (Num.add_scaled (Num.mean l) k (Num.std l)) = true
   <-> (Q2R m + Q2R k * sqrt (Q2R v) <= Q2R x)%R).
Proof.
  intros Hm Hv. unfold Num.std. rewrite Hm, Hv. simpl Num.add_scaled.
  unfold Num.ge. rewrite Qge_surd_real by (simpl; eapply var_nonneg; eassumption).
  unfold surd_value; simpl.
  rewrite Q2R_plus, !Q2R_mult.
  assert (H0 : Q2R 0 = 0%R) by (unfold Q2R; simpl; field).
  assert (H1 : Q2R 1 = 1%R) by (unfold Q2R; simpl; field).
  rewrite H0, H1. split; intros; lra.
Qed.

(** ** The heuristic heading detector *)

Lemma assign_const_map (f : ARow -> Z) (p : Q) (df : list ARow) :
  assign_const df (map f df) p
  = map (fun r => mkARow (row r) (f r) p) df.
Proof.
  induction df as [|r df IH]; simpl; [reflexivity|].
  now rewrite IH.
Qed.

Lemma rule_class_range (h1 h2 h3 : Num.fnum) (r : Row) :
  In (rule_class h1 h2 h3 r) [0; 1; 2; 3]%Z.
Proof.
  unfold rule_class.
  destruct (Num.ge (font_size r) h1 && _); [simpl; tauto|].
  destruct (Num.ge (font_size r) h2 && _); [simpl; tauto|].
  destruct (Num.ge (font_size r) h3 && _); simpl; tauto.
Qed.

(** The vectorised computation of the source, read row by row. *)
Lemma heuristic_rowwise (df : list ARow) :
  _heuristic_heading_detection df
  = filter (fun r => (0 <? predicted_class r)%Z) (map (heuristic_annotate df) df).
Proof.
  unfold _heuristic_heading_detection.
  cbv zeta. rewrite select_map. f_equal.
  rewrite mor_map, !mand_map.
  cbn [DF.np_select].
  rewrite (repeat_map 0%Z df).
  rewrite !np_where_map.
  rewrite assign_const_map.
  apply map_ext. intros r.
  unfold heuristic_annotate, rule_class, threshold. cbv zeta.
  reflexivity.
Qed.

Lemma rule_class_in_range (A : FloatArith.Arith) (df : list ARow) (r : Row) :
  In (rule_class_in A df r) [0; 1; 2; 3]%Z.
Proof.
  unfold rule_class_in. cbv zeta.
  destruct (FloatArith.ge A (font_size r) (threshold_in A df (3 # 2)) && _);
    [simpl; tauto|].
  destruct (FloatArith.ge A (font_size r) (threshold_in A df 1) && _);
    [simpl; tauto|].
  destruct (FloatArith.ge A (font_size r) (threshold_in A df (1 # 2)) && _);
    simpl; tauto.
Qed.

(** The vectorised computation of the source, read row by row, in any
    arithmetic. *)
Lemma heuristic_rowwise_in (A : FloatArith.Arith) (df : list ARow) :
  FloatArith._heuristic_heading_detection A df
  = filter (fun r => (0 <? predicted_class r)%Z) (map (heuristic_annotate_in A df) df).
Proof.
  unfold FloatArith._heuristic_heading_detection.
  cbv zeta. rewrite select_map. f_equal.
  rewrite mor_map, !mand_map.
  cbn [DF.np_select].
  rewrite (repeat_map 0%Z df).
  rewrite !np_where_map.
  rewrite assign_const_map.
  apply map_ext. intros r.
  unfold heuristic_annotate_in, rule_class_in, threshold_in. cbv zeta.
  reflexivity.
Qed.

(** The detector of the other sections is this one in the exact
    arithmetic. *)
Lemma heuristic_exact (df : list ARow) :
  FloatArith._heuristic_heading_detection exact_arith df
  = _heuristic_heading_detection df.
Proof.
  rewrite heuristic_rowwise_in, heuristic_rowwise. f_equal.
  apply map_ext. intros r.
  unfold heuristic_annotate_in, heuristic_annotate. f_equal.
  unfold rule_class_in, rule_class, threshold_in, threshold. cbv zeta.
  cbn [exact_arith FloatArith.F FloatArith.mean FloatArith.std FloatArith.const
       FloatArith.mul FloatArith.add FloatArith.ge].
  unfold Num.add_scaled.
  destruct (Num.mean _) as [m|]; destruct (Num.std _) as [s|]; reflexivity.
Qed.

(** C3 (heuristic heading detector).  Whatever the arithmetic of the
    floats, with the mean and the standard deviation taken over the font
    sizes of the whole table, the detector returns the rows of the table,
    each annotated with the class of the first matching rule (H1 = 3 for a
    bold row at or above [mean + 1.5 * std], else H2 = 2 for a bold row at or
    above [mean + 1.0 * std], else H3 = 1 for a bold or uppercase row at or
    above [mean + 0.5 * std], else body = 0) and with [max_probability = 1],
    and keeps exactly those whose class is not body, in the order of the
    table. *)
Theorem C3_heuristic_heading_detector (A : FloatArith.Arith) (df : list ARow) :
  FloatArith._heuristic_heading_detection A df
  = filter (fun r => negb (predicted_class r =? 0)%Z)
           (map (heuristic_annotate_in A df) df)
  /\ Forall (fun r => max_probability r = 1 /\ In (predicted_class r) [1; 2; 3]%Z)
            (FloatArith._heuristic_heading_detection A df).
Proof.
  assert (Hfilter : forall r,
            In r (map (heuristic_annotate_in A df) df) ->
            (0 <? predicted_class r)%Z = negb (predicted_class r =? 0)%Z).
  { intros r Hr. apply in_map_iff in Hr. destruct Hr as (r0 & <- & _).
    unfold heuristic_annotate_in; simpl.
    pose proof (rule_class_in_range A df r0) as H.
    simpl in H. destruct H as [<-|[<-|[<-|[<-|[]]]]]; reflexivity. }
  rewrite heuristic_rowwise_in. split.
  - now apply filter_ext_in.
  - apply Forall_forall. intros r Hr. apply filter_In in Hr.
    destruct Hr as [Hr Hpos]. apply in_map_iff in Hr.
    destruct Hr as (r0 & <- & _). unfold heuristic_annotate_in in *; simpl in *.
    split; [reflexivity|].
    pose proof (rule_class_in_range A df r0) as H.
    simpl in H. destruct H as [H|[H|[H|[H|[]]]]]; rewrite <- H in *; simpl; auto.
    discriminate.
Qed.

(** In the arithmetic of doubles the mean of three sizes 10.8 is one unit in
    the last place above 10.8, and no row reaches a threshold; in the exact
    arithmetic the three rows are at the threshold and are headings. *)
Example tenths_table_classes :
  map predicted_class (FloatArith._heuristic_heading_detection double_arith tenths_table)
  = []
  /\ map predicted_class (FloatArith._heuristic_heading_detection exact_arith tenths_table)
     = [3; 3; 3]%Z.
Proof. split; vm_compute; reflexivity. Qed.

(** The scenario of the specification has the same outcome in both. *)
Example sample_table_classes :
  map (fun c : ARow => (text c, predicted_class c))
      (FloatArith._heuristic_heading_detection double_arith sample_table)
  = [("Executive Summary"%string, 3%Z)]
  /\ map (fun c : ARow => (text c, predicted_class c))
         (FloatArith._heuristic_heading_detection exact_arith sample_table)
     = [("Executive Summary"%string, 3%Z)].
Proof. split; vm_compute; reflexivity. Qed.

Example sample_table_outline :
  _extract_outline sample_table
  = [ {| level := "H1"; htext := "Executive Summary"; page := 1 |} ].
Proof. vm_compute. reflexivity. Qed.

Example sample_table_title :
  _extract_title sample_table = "Executive Summary"%string.
Proof. vm_compute. reflexivity. Qed.

Lemma C3_heuristic_heading_detector_witness :
  FloatArith._heuristic_heading_detection double_arith sample_table
  = filter (fun r => negb (predicted_class r =? 0)%Z)
           (map (heuristic_annotate_in double_arith sample_table) sample_table).
Proof.
  exact (proj1 (C3_heuristic_heading_detector double_arith sample_table)).
Defined.

(** C9 (one-span document).  On a table of a single row the sample standard
    deviation is NaN, the detector returns no candidate whatever the font
    size and the style of the row, and the outline is empty as soon as the
    classifier gives no confident heading. *)
Theorem C9_single_span_no_heading (r : ARow) :
  Num.std [font_size r] = None
  /\ _heuristic_heading_detection [r] = []
  /\ (confident_headings [r] = [] -> _extract_outline [r] = []).
Proof.
  split; [reflexivity|].
  assert (H : _heuristic_heading_detection [r] = []) by reflexivity.
  split; [exact H|].
  intros Hc. unfold _extract_outline, candidates.
  rewrite Hc. cbn [DF.empty]. rewrite H. reflexivity.
Qed.

Lemma C9_single_span_no_heading_witness : _extract_outline [lone_row] = [].
Proof.
  apply (proj2 (proj2 (C9_single_span_no_heading lone_row))).
  reflexivity.
Defined.

(** ** Stable sorting *)

Section StableSort.

Context {A : Type}.
Variable leb : A -> A -> bool.
Variable eqk : A -> A -> bool.

Hypothesis leb_total : forall a b, leb a b = true \/ leb b a = true.
Hypothesis leb_trans : forall a b c, leb a b = true -> leb b c = true -> leb a c = true.
Hypothesis eqk_leb : forall a x y, eqk a x = true -> eqk a y = true -> leb x y = true.

Let le (a b : A) : Prop := leb a b = true.

Lemma insert_perm (x : A) (l : list A) : Permutation (x :: l) (DF.insert leb x l).
Proof.
  induction l as [|y l IH]; simpl; [reflexivity|].
  destruct (leb x y); [reflexivity|].
  rewrite perm_swap. now apply perm_skip.
Qed.

Lemma sort_values_perm (l : list A) : Permutation l (DF.sort_values leb l).
Proof.
  induction l as [|x l IH]; simpl; [constructor|].
  rewrite <- insert_perm. now apply perm_skip.
Qed.

Lemma insert_Forall (P : A -> Prop) (x : A) (l : list A) :
  P x -> Forall P l -> Forall P (DF.insert leb x l).
Proof.
  intros Hx Hl. induction Hl as [|y l Hy Hl IH]; simpl.
  - now constructor.
  - destruct (leb x y); repeat constructor; assumption.
Qed.

Lemma insert_sorted (x : A) (l : list A) :
  StronglySorted le l -> StronglySorted le (DF.insert leb x l).
Proof.
  induction 1 as [|y l Hs IH Hy]; simpl.
  - repeat constructor.
  - destruct (leb x y) eqn:E.
    + constructor; [now constructor|].
      constructor; [exact E|].
      eapply Forall_impl; [|exact Hy].
      intros z Hz. unfold le in *. now apply leb_trans with y.
    + constructor; [exact IH|].
      apply insert_Forall; [|exact Hy].
      destruct (leb_total x y) as [H|H]; [congruence | exact H].
Qed.

Lemma sort_values_sorted (l : list A) : StronglySorted le (DF.sort_values leb l).
Proof.
  induction l as [|x l IH]; simpl; [constructor | now apply insert_sorted].
Qed.

Lemma insert_filter (a x : A) (l : list A) :
  filter (eqk a) (DF.insert leb x l) = filter (eqk a) (x :: l).
Proof.
  induction l as [|y l IH]; simpl; [reflexivity|].
  destruct (leb x y) eqn:E; [reflexivity|].
  simpl in *. rewrite IH.
  destruct (eqk a x) eqn:Ex, (eqk a y) eqn:Ey; try reflexivity.
  rewrite (eqk_leb a x y Ex Ey) in E. discriminate.
Qed.

(** Stability: the rows of one key come out in the order they went in. *)
Lemma sort_values_stable (a : A) (l : list A) :
  filter (eqk a) (DF.sort_values leb l) = filter (eqk a) l.
Proof.
  induction l as [|x l IH]; simpl; [reflexivity|].
  rewrite insert_filter. simpl. now rewrite IH.
Qed.

End StableSort.

Lemma StronglySorted_before {A : Type} (R : A -> A -> Prop) (l : list A) :
  StronglySorted R l -> forall a b, before_in a b l -> R a b.
Proof.
  intros Hs a b (l1 & l2 & l3 & ->).
  induction l1 as [|x l1 IH]; simpl in Hs.
  - apply StronglySorted_inv in Hs. destruct Hs as [_ Hall].
    rewrite Forall_forall in Hall. apply Hall.
    apply in_or_app. right. now left.
  - apply StronglySorted_inv in Hs. now apply IH.
Qed.

(** ** The outline resolver *)

Lemma key_leb_iff (a b : ARow) : key_leb a b = true <-> key_le a b.
Proof.
  unfold key_leb, key_le.
  rewrite orb_true_iff, andb_true_iff, Z.ltb_lt, Z.eqb_eq, Qle_bool_iff.
  reflexivity.
Qed.

Lemma key_leb_total (a b : ARow) :
  key_leb a b = true \/ key_leb b a = true.
Proof.
  rewrite !key_leb_iff. unfold key_le.
  destruct (Z.lt_trichotomy (page_number a) (page_number b)) as [H|[H|H]]; auto.
  destruct (Qlt_le_dec (y_position b) (y_position a)) as [Hy|Hy].
  - right. right. split; [congruence | now apply Qlt_le_weak].
  - left. right. now split.
Qed.

Lemma key_leb_trans (a b c : ARow) :
  key_leb a b = true -> key_leb b c = true ->
  key_leb a c = true.
Proof.
  rewrite !key_leb_iff. unfold key_le.
  intros [H1|[H1 Y1]] [H2|[H2 Y2]]; try (left; lia).
  right. split; [congruence|]. now apply Qle_trans with (y_position b).
Qed.

Lemma same_key_leb (a x y : ARow) :
  same_key a x = true -> same_key a y = true -> key_leb x y = true.
Proof.
  unfold same_key. rewrite !andb_true_iff, !Z.eqb_eq, !Qeq_bool_iff, key_leb_iff.
  intros [P1 Y1] [P2 Y2]. right. split; [congruence|].
  rewrite <- Y1, <- Y2. apply Qle_refl.
Qed.

Lemma sorted_key_le (cands : list ARow) :
  StronglySorted key_le (DF.sort_values key_leb cands).
Proof.
  pose proof (sort_values_sorted key_leb key_leb_total key_leb_trans cands) as H.
  induction H as [|a l Hs IH Ha]; constructor; [assumption|].
  eapply Forall_impl; [|exact Ha]. intros b. apply key_leb_iff.
Qed.

(** C4 (outline ordering and level mapping).  The outline is the image,
    entry by entry, of the candidate set sorted by [sort_values]; the sorted
    rows are a permutation of the candidates, any row that comes before
    another is on an earlier page, or on the same page and not lower, and
    rows equal on both keys keep their relative order.  Each entry keeps the
    text and the page of its row and has level H1 for class 3, H2 for class
    2 and H3 for class 1 and for any other class. *)
Theorem C4_outline_order_and_levels (cands : list ARow) :
  let sorted := DF.sort_values key_leb cands in
  Permutation cands sorted
  /\ (forall a b, before_in a b sorted -> key_le a b)
  /\ (forall a, filter (same_key a) sorted = filter (same_key a) cands)
  /\ (forall df, candidates df = cands ->
                 _extract_outline df = map heading_of sorted)
  /\ (forall r,
        htext (heading_of r) = text r
        /\ page (heading_of r) = page_number r
        /\ level (heading_of r)
           = if (predicted_class r =? 3)%Z then "H1"%string
             else if (predicted_class r =? 2)%Z then "H2"%string
             else "H3"%string).
Proof.
  cbv zeta. split; [|split; [|split; [|split]]].
  - apply sort_values_perm.
  - apply StronglySorted_before, sorted_key_le.
  - intros a. apply sort_values_stable. apply same_key_leb.
  - intros df <-. reflexivity.
  - intros r. split; [reflexivity|]. split; [reflexivity|].
    unfold heading_of, level_map; simpl.
    destruct (predicted_class r) as [|[p|p|]|]; try reflexivity;
      destruct p as [p|p|]; reflexivity.
Qed.

Example sample_candidates_outline :
  map heading_of (DF.sort_values key_leb sample_candidates)
  = [ {| level := "H1"; htext := "a"; page := 1 |};
      {| level := "H2"; htext := "b"; page := 1 |};
      {| level := "H3"; htext := "c"; page := 1 |};
      {| level := "H3"; htext := "d"; page := 2 |} ].
Proof. reflexivity. Qed.

Lemma C4_outline_order_and_levels_witness :
  key_le (cand "b" 2 1 90) (cand "c" 7 1 90).
Proof.
  apply (proj1 (proj2 (C4_outline_order_and_levels sample_candidates))).
  exists [cand "a" 3 1 (25 # 2)], [], [cand "d" 1 2 40]. reflexivity.
Defined.

Lemma classifier_confidentb_iff (r : ARow) :
  classifier_confidentb r = true <-> classifier_confident r.
Proof.
  unfold classifier_confidentb, classifier_confident, isin.
  rewrite andb_true_iff, Qlt_bool_iff, existsb_exists.
  split; intros [H1 H2]; split; try assumption.
  - destruct H1 as (x & Hx & E). apply Z.eqb_eq in E. now subst.
  - exists (predicted_class r). split; [assumption | apply Z.eqb_refl].
Qed.

Lemma confident_headings_filter (df : list ARow) :
  confident_headings df = filter classifier_confidentb df.
Proof.
  unfold confident_headings. now rewrite mand_map, select_map.
Qed.

Lemma filter_nonempty_iff {A : Type} (p : A -> bool) (l : list A) :
  filter p l <> [] <-> Exists (fun x => p x = true) l.
Proof.
  rewrite Exists_exists. split.
  - intros H. destruct (filter p l) as [|x r] eqn:E; [congruence|].
    exists x. apply filter_In. rewrite E. now left.
  - intros (x & Hx & Hp) E.
    assert (Hin : In x (filter p l)) by (apply filter_In; now split).
    rewrite E in Hin. destruct Hin.
Qed.

(** C1 (all-or-nothing fallback).  If some row of the table is
    classifier-confident, the candidate set is exactly the
    classifier-confident rows of the table, in their order, and the outline
    is built from them alone; otherwise the candidate set is the result of
    the heuristic detector on the whole table, and the outline is built from
    that alone. *)
Theorem C1_all_or_nothing_fallback (df : list ARow) :
  (Exists classifier_confident df ->
   candidates df = filter classifier_confidentb df
   /\ (forall r, In r (candidates df) <-> In r df /\ classifier_confident r)
   /\ _extract_outline df
      = map heading_of
            (DF.sort_values key_leb (filter classifier_confidentb df)))
  /\ (~ Exists classifier_confident df ->
      candidates df = _heuristic_heading_detection df
      /\ _extract_outline df
         = map heading_of
               (DF.sort_values key_leb
                               (_heuristic_heading_detection df))).
Proof.
  unfold _extract_outline, candidates.
  rewrite confident_headings_filter.
  split; intros H.
  - assert (Hne : filter classifier_confidentb df <> []).
    { apply filter_nonempty_iff. eapply Exists_impl; [|exact H].
      intros r. apply classifier_confidentb_iff. }
    apply empty_false in Hne. rewrite Hne.
    split; [reflexivity|]. split; [|reflexivity].
    intros r. rewrite filter_In, classifier_confidentb_iff. reflexivity.
  - assert (He : filter classifier_confidentb df = []).
    { destruct (filter classifier_confidentb df) as [|x l] eqn:E; [reflexivity|].
      exfalso. apply H.
      assert (Hx : In x (filter classifier_confidentb df)) by (rewrite E; now left).
      apply filter_In in Hx. apply Exists_exists. exists x.
      split; [tauto | apply classifier_confidentb_iff; tauto]. }
    rewrite He. cbn [DF.empty]. split; reflexivity.
Qed.

Example mixed_table_outline :
  _extract_outline mixed_table
  = [ {| level := "H2"; htext := "lorem ipsum"; page := 1 |} ].
Proof. vm_compute. reflexivity. Qed.

Lemma C1_all_or_nothing_fallback_witness :
  candidates mixed_table = filter classifier_confidentb mixed_table.
Proof.
  apply (proj1 (C1_all_or_nothing_fallback mixed_table)).
  apply Exists_cons_tl, Exists_cons_hd. split.
  - simpl. auto.
  - reflexivity.
Defined.

(** ** The title resolver *)

Section FirstMaximum.

Context {A : Type}.
Variable size : A -> Q.

Lemma idxmax_from_spec (l pre : list A) (c : A) (mid : list A) :
  Forall (fun x => size x < size c) pre ->
  Forall (fun x => size x <= size c) mid ->
  exists before r after,
    pre ++ c :: mid ++ l = before ++ r :: after
    /\ DF.idxmax_from (size c) (List.length pre)
                      (List.length pre + 1 + List.length mid) (map size l)
       = List.length before
    /\ Forall (fun x => size x < size r) before
    /\ Forall (fun x => size x <= size r) after.
Proof.
  revert pre c mid. induction l as [|x l IH]; intros pre c mid Hpre Hmid.
  - exists pre, c, mid. rewrite app_nil_r. simpl. auto.
  - simpl. destruct (Num.Qlt_bool (size c) (size x)) eqn:E.
    + apply Qlt_bool_iff in E.
      destruct (IH (pre ++ c :: mid) x []) as (b & r & a & Heq & Hidx & Hb & Ha).
      * apply Forall_app. split.
        -- eapply Forall_impl; [|exact Hpre]. intros y Hy. simpl in Hy. lra.
        -- constructor; [exact E|].
           eapply Forall_impl; [|exact Hmid]. intros y Hy. simpl in Hy. lra.
      * constructor.
      * exists b, r, a. repeat split; try assumption.
        -- rewrite <- Heq. rewrite <- app_assoc. reflexivity.
        -- rewrite <- Hidx. f_equal; rewrite length_app; simpl; lia.
    + apply Qlt_bool_false_iff in E.
      destruct (IH pre c (mid ++ [x])) as (b & r & a & Heq & Hidx & Hb & Ha).
      * exact Hpre.
      * apply Forall_app. split; [exact Hmid | now constructor].
      * exists b, r, a. repeat split; try assumption.
        -- rewrite <- Heq. rewrite <- app_assoc. reflexivity.
        -- rewrite <- Hidx. f_equal. rewrite length_app; simpl; lia.
Qed.

(** [idxmax] of a non-empty column is the position of its first maximum. *)
Lemma idxmax_first_max (l : list A) :
  l <> [] ->
  exists before r after,
    l = before ++ r :: after
    /\ DF.idxmax (map size l) = Some (List.length before)
    /\ Forall (fun x => size x < size r) before
    /\ Forall (fun x => size x <= size r) after.
Proof.
  destruct l as [|c l]; [congruence|]. intros _.
  destruct (idxmax_from_spec l [] c []) as (b & r & a & Heq & Hidx & Hb & Ha);
    try constructor.
  exists b, r, a. simpl in *. rewrite Hidx. auto.
Qed.

End FirstMaximum.

Lemma nth_error_middle_eq {A : Type} (before : list A) (r : A) (after : list A) :
  nth_error (before ++ r :: after) (List.length before) = Some r.
Proof. induction before as [|x b IH]; simpl; auto. Qed.

Lemma loc_idxmax_first_largest (df : list ARow) :
  df <> [] -> exists r, loc_idxmax df = Some r /\ first_largest r df.
Proof.
  intros Hne.
  destruct (idxmax_first_max (fun r : ARow => font_size r) df Hne)
    as (b & r & a & Heq & Hidx & Hb & Ha).
  exists r. unfold loc_idxmax. rewrite Hidx. split.
  - rewrite Heq. apply nth_error_middle_eq.
  - now exists b, a.
Qed.

Lemma filter_filter {A : Type} (p q : A -> bool) (l : list A) :
  filter q (filter p l) = filter (fun x => p x && q x) l.
Proof.
  induction l as [|x l IH]; simpl; [reflexivity|].
  destruct (p x); simpl; [destruct (q x)|]; now rewrite IH.
Qed.

Lemma filter_map_row (p : Row -> bool) (df : list ARow) :
  filter p (map row df) = map row (filter (fun r : ARow => p r) df).
Proof.
  induction df as [|r df IH]; simpl; [reflexivity|].
  destruct (p r); simpl; now rewrite IH.
Qed.

Lemma or_empty_some (s : string) : or_empty (Some s) = s.
Proof. destruct s; reflexivity. Qed.

(** The page-1 heuristic on an annotated table, without masks. *)
Lemma identify_title_heuristic_rows (df : list ARow) :
  identify_title_heuristic (map row df)
  = let first_page := filter on_first_page df in
    let fmax := Num.max (map (fun r : ARow => font_size r) first_page) in
    match first_page with
    | [] => None
    | _ =>
        match filter (fun r : ARow =>
                        Num.eq_nan (font_size r) fmax && (is_bold r =? 1)%Z)
                     first_page with
        | r :: _ => Some (text r)
        | [] =>
            match filter (fun r : ARow => Num.eq_nan (font_size r) fmax)
                         first_page with
            | r :: _ => Some (text r)
            | [] => None
            end
        end
    end.
Proof.
  destruct df as [|r0 df0]; [reflexivity|].
  remember (r0 :: df0) as df eqn:Edf.
  unfold identify_title_heuristic. cbv zeta.
  assert (Hne : DF.empty (map row df) = false) by (subst; reflexivity).
  rewrite Hne, select_map, filter_map_row.
  change (filter (fun r : ARow => (page_number r =? 1)%Z) df)
    with (filter on_first_page df).
  generalize (filter on_first_page df) as fp. clear. intros fp.
  rewrite mand_map, !select_map, !map_map, !filter_map_row.
  destruct fp as [|r fp']; [reflexivity|].
  cbn [DF.empty map].
  match goal with |- context [Num.max ?l] => generalize (Num.max l) end.
  intros M.
  destruct (filter _ (r :: fp')) as [|c cs]; cbn [map]; [|reflexivity].
  destruct (filter _ (r :: fp')) as [|c cs]; reflexivity.
Qed.

Lemma extract_title_unfold (df : list ARow) :
  _extract_title df
  = let fallback :=
      or_empty (identify_title_heuristic (map row df)) in
    if negb (DF.empty (filter on_first_page df)) then
      if negb (DF.empty (title_candidates df)) then
        match loc_idxmax (title_candidates df) with
        | Some title_candidate => text title_candidate
        | None => fallback
        end
      else fallback
    else fallback.
Proof.
  unfold _extract_title. cbv zeta.
  rewrite mand_map, !select_map, filter_filter. reflexivity.
Qed.

Lemma title_candidates_first_page (df : list ARow) :
  title_candidates df = filter h1_confidentb (filter on_first_page df).
Proof. unfold title_candidates. now rewrite filter_filter. Qed.

Lemma extract_title_classifier (df : list ARow) :
  title_candidates df <> [] ->
  exists r, loc_idxmax (title_candidates df) = Some r
            /\ _extract_title df = text r.
Proof.
  intros Hne.
  destruct (loc_idxmax_first_largest _ Hne) as (r & Hloc & _).
  exists r. split; [exact Hloc|].
  rewrite extract_title_unfold. cbv zeta.
  assert (Hfp : filter on_first_page df <> []).
  { intros E. apply Hne. now rewrite title_candidates_first_page, E. }
  apply empty_false in Hfp, Hne. rewrite Hfp, Hne, Hloc. reflexivity.
Qed.

Lemma extract_title_fallback (df : list ARow) :
  title_candidates df = [] ->
  _extract_title df
  = or_empty (identify_title_heuristic (map row df)).
Proof.
  intros He. rewrite extract_title_unfold. cbv zeta.
  rewrite He. cbn [DF.empty negb].
  destruct (DF.empty _); reflexivity.
Qed.

Lemma match_nonempty {A B : Type} (l : list A) (a b : B) :
  l <> [] -> match l with [] => a | _ :: _ => b end = b.
Proof. destruct l; congruence. Qed.

Lemma title_candidates_In (df : list ARow) (x : ARow) :
  In x (title_candidates df)
  <-> In x df /\ page_number x = 1%Z /\ predicted_class x = 3%Z
      /\ confidence_threshold < max_probability x.
Proof.
  unfold title_candidates, on_first_page, h1_confidentb.
  rewrite filter_In, !andb_true_iff, !Z.eqb_eq, Qlt_bool_iff. tauto.
Qed.

(** C2 (title, classifier path).  When some span of page 1 has predicted
    class 3 with [max_probability > 0.6], the title is the text of the first,
    in input order, of those spans that has the largest font size among
    them. *)
Theorem C2_title_classifier_path (df : list ARow) :
  title_candidates df <> [] ->
  (forall x, In x (title_candidates df)
             <-> In x df /\ page_number x = 1%Z /\ predicted_class x = 3%Z
                 /\ confidence_threshold < max_probability x)
  /\ exists r, first_largest r (title_candidates df)
               /\ _extract_title df = text r.
Proof.
  intros Hne. split; [apply title_candidates_In|].
  destruct (extract_title_classifier df Hne) as (r & Hloc & Ht).
  destruct (loc_idxmax_first_largest _ Hne) as (r' & Hloc' & Hfirst).
  exists r. split; [|exact Ht]. congruence.
Qed.

Example title_table_title : _extract_title title_table = "First"%string.
Proof. vm_compute. reflexivity. Qed.

Lemma C2_title_classifier_path_witness :
  exists r, first_largest r (title_candidates title_table)
            /\ _extract_title title_table = text r.
Proof.
  apply (C2_title_classifier_path title_table). vm_compute. discriminate.
Defined.

Lemma first_such_filter (p : ARow -> bool) (P : ARow -> Prop) (l : list ARow)
      (r : ARow) (rest : list ARow) :
  (forall x, p x = true <-> P x) ->
  filter p l = r :: rest -> first_such P r l.
Proof.
  intros Hp Hf. destruct (filter_first p l r rest Hf) as (b & a & -> & Hr & Hb).
  exists b, a. split; [reflexivity|]. split; [now apply Hp|].
  eapply Forall_impl; [|exact Hb]. intros x Hx HP. apply Hp in HP. congruence.
Qed.

Lemma heuristic_title_spec (df : list ARow) :
  fallback_title_spec
    (filter on_first_page df)
    (or_empty (identify_title_heuristic (map row df))).
Proof.
  rewrite identify_title_heuristic_rows. cbv zeta.
  generalize (filter on_first_page df) as fp. intros fp. split.
  - intros ->. reflexivity.
  - intros M HM.
    assert (Hne : fp <> []).
    { intros ->. destruct HM as [HM _]. inversion HM. }
    rewrite (match_nonempty fp _ _ Hne).
    destruct (max_some (map (fun r : ARow => font_size r) fp)) as [m Hm].
    { destruct fp; [congruence | discriminate]. }
    rewrite Hm.
    assert (HmM : m == M) by (eapply is_max_unique; [apply max_is_max|]; eassumption).
    assert (Heq : forall x : ARow,
               Num.eq_nan (font_size x) (Some m) = true <-> font_size x == M).
    { intros x. simpl. rewrite Qeq_bool_iff, HmM. reflexivity. }
    assert (Hbold : forall x : ARow,
               Num.eq_nan (font_size x) (Some m) && (is_bold x =? 1)%Z = true
               <-> bold_largest M x).
    { intros x. unfold bold_largest. rewrite andb_true_iff, Heq, Z.eqb_eq. tauto. }
    split.
    + intros Hex.
      destruct (filter (fun r : ARow => Num.eq_nan (font_size r) (Some m)
                                        && (is_bold r =? 1)%Z) fp)
        as [|r rest] eqn:Ef.
      * exfalso. rewrite filter_nil_iff in Ef. rewrite Forall_forall in Ef.
        apply Exists_exists in Hex. destruct Hex as (x & Hx & HP).
        apply Hbold in HP. rewrite (Ef x Hx) in HP. discriminate.
      * exists r. split; [|now rewrite or_empty_some].
        exact (first_such_filter _ _ _ _ _ Hbold Ef).
    + intros Hnot.
      destruct (filter (fun r : ARow => Num.eq_nan (font_size r) (Some m)
                                        && (is_bold r =? 1)%Z) fp)
        as [|r rest] eqn:Ef.
      * destruct (filter (fun r : ARow => Num.eq_nan (font_size r) (Some m)) fp)
          as [|r rest] eqn:Eg.
        -- exfalso. rewrite filter_nil_iff in Eg. rewrite Forall_forall in Eg.
           destruct HM as [HM _]. apply Exists_exists in HM.
           destruct HM as (q & Hq & HqM). apply in_map_iff in Hq.
           destruct Hq as (x & <- & Hx). apply Heq in HqM.
           rewrite (Eg x Hx) in HqM. discriminate.
        -- exists r. split; [|now rewrite or_empty_some].
           exact (first_such_filter _ _ _ _ _ Heq Eg).
      * exfalso. apply Hnot. apply Exists_exists. exists r.
        assert (Hin : In r (filter (fun r : ARow =>
                                      Num.eq_nan (font_size r) (Some m)
                                      && (is_bold r =? 1)%Z) fp))
          by (rewrite Ef; now left).
        apply filter_In in Hin. destruct Hin as [Hin Hp].
        split; [exact Hin | now apply Hbold].
Qed.

(** C6 (title, heuristic fallback).  When no span of page 1 has predicted
    class 3 with [max_probability > 0.6], the title is empty if page 1 has no
    span; otherwise, [M] being the largest font size of page 1, it is the
    text of the first bold span of page 1 of size [M] if there is one, and
    else the text of the first span of page 1 of size [M]. *)
Theorem C6_title_heuristic_fallback (df : list ARow) :
  title_candidates df = [] ->
  fallback_title_spec (filter on_first_page df) (_extract_title df).
Proof.
  intros He. rewrite (extract_title_fallback df He). apply heuristic_title_spec.
Qed.

Lemma C6_title_heuristic_fallback_witness :
  fallback_title_spec (filter on_first_page sample_table)
                      (_extract_title sample_table).
Proof. apply (C6_title_heuristic_fallback sample_table). reflexivity. Defined.

Lemma first_page_In (df : list ARow) (x : ARow) :
  In x (filter on_first_page df) <-> In x df /\ page_number x = 1%Z.
Proof. unfold on_first_page. now rewrite filter_In, Z.eqb_eq. Qed.

Lemma filter_head_In {A : Type} (p : A -> bool) (l : list A) (r : A) (rest : list A) :
  filter p l = r :: rest -> In r l.
Proof.
  intros E. assert (H : In r (filter p l)) by (rewrite E; now left).
  now apply filter_In in H.
Qed.

(** The page-1 heuristic returns nothing or the text of a span of page 1. *)
Lemma heuristic_title_source (df : list ARow) :
  identify_title_heuristic (map row df) = None
  \/ exists r, In r (filter on_first_page df)
               /\ identify_title_heuristic (map row df)
                  = Some (text r).
Proof.
  rewrite identify_title_heuristic_rows. cbv zeta.
  generalize (filter on_first_page df) as fp. intros fp.
  destruct fp as [|r0 fp']; [left; reflexivity|].
  generalize (r0 :: fp') as fp. intros fp.
  generalize (Num.max (map (fun r : ARow => font_size r) fp)) as M. intros M.
  destruct (filter _ fp) as [|r rest] eqn:Ef.
  - destruct (filter (fun r : ARow => Num.eq_nan (font_size r) M) fp)
      as [|r rest] eqn:Eg; [now left|].
    right. exists r. split; [|reflexivity]. eapply filter_head_In; eassumption.
  - right. exists r. split; [|reflexivity]. eapply filter_head_In; eassumption.
Qed.

(** C10 (provenance of the title).  A non-empty title is, verbatim, the
    text of a row of the table whose page number is 1. *)
Theorem C10_title_from_first_page (df : list ARow) :
  _extract_title df <> EmptyString ->
  exists r, In r df /\ page_number r = 1%Z /\ text r = _extract_title df.
Proof.
  intros Hne.
  destruct (title_candidates df) as [|c cs] eqn:Ec.
  - rewrite (extract_title_fallback df Ec) in *.
    destruct (heuristic_title_source df) as [E|(r & Hr & E)]; rewrite E in *.
    + now contradiction Hne.
    + apply first_page_In in Hr. destruct Hr as [Hin Hpage].
      exists r. rewrite or_empty_some. auto.
  - assert (Hc : title_candidates df <> []) by (rewrite Ec; discriminate).
    destruct (loc_idxmax_first_largest _ Hc) as (r & Hloc & (b & a & Hsplit & _)).
    destruct (extract_title_classifier df Hc) as (r' & Hloc' & Ht).
    assert (r' = r) by congruence. subst r'.
    assert (Hin : In r (title_candidates df)).
    { rewrite Hsplit. apply in_or_app. right. now left. }
    apply title_candidates_In in Hin. destruct Hin as (Hin & Hpage & _).
    exists r. auto.
Qed.

Lemma C10_title_from_first_page_witness :
  exists r, In r title_table /\ page_number r = 1%Z
            /\ text r = _extract_title title_table.
Proof.
  apply (C10_title_from_first_page title_table). vm_compute. discriminate.
Defined.

(** * Further properties of the code *)

(** ** Rows of the feature table *)

Lemma land_pow2 (a n : Z) :
  (0 <= n)%Z -> Z.land a (2 ^ n) = if Z.testbit a n then (2 ^ n)%Z else 0%Z.
Proof.
  intros Hn. apply Z.bits_inj'. intros m Hm.
  rewrite Z.land_spec, Z.pow2_bits_eqb by assumption.
  destruct (Z.testbit a n) eqn:E.
  - rewrite Z.pow2_bits_eqb by assumption.
    destruct (Z.eqb_spec n m) as [<-|]; [now rewrite E | apply andb_false_r].
  - rewrite Z.bits_0.
    destruct (Z.eqb_spec n m) as [<-|]; [now rewrite E | apply andb_false_r].
Qed.

Lemma flag_bit (a n : Z) :
  (0 <= n)%Z ->
  (int_of_bool (bool_of_int (Z.land a (2 ^ n))) = 1%Z <-> Z.testbit a n = true).
Proof.
  intros Hn. rewrite int_of_bool_1, (land_pow2 a n Hn). unfold bool_of_int.
  destruct (Z.testbit a n).
  - assert (0 < 2 ^ n)%Z by (apply Z.pow_pos_nonneg; lia).
    destruct (Z.eqb_spec (2 ^ n) 0); [lia | tauto].
  - simpl. split; discriminate.
Qed.

Lemma flag_int_of_bool (b : bool) : flag (int_of_bool b).
Proof. destruct b; [now right | now left]. Qed.

(** X1.  The feature table has one row per span, in the order of the spans;
    a row carries the text, the page number and the font size of its span;
    [is_bold] is bit 4 and [is_italic] bit 1 of the span's font flags; and
    the seven flag columns hold 0 or 1. *)
Theorem X1_rows_follow_spans (spans : list Span.t) :
  List.length (calculate_features spans) = List.length spans
  /\ Forall2 row_of_span spans (calculate_features spans).
Proof.
  rewrite calculate_features_map. split; [apply length_map|].
  apply Forall2_map_self. intros s _.
  unfold row_of_span, span_features. cbv zeta.
  cbn [text page_number font_size is_bold is_italic is_uppercase is_title_case
       is_centered has_numbers starts_with_number].
  repeat split; try apply flag_int_of_bool; try (apply flag_bit; lia).
Qed.

(** ** Text features *)

Lemma chars_length (s : string) : List.length (PyStr.chars s) = String.length s.
Proof. induction s as [|c s IH]; simpl; [reflexivity | now rewrite IH]. Qed.

Lemma count_words_le (in_word : bool) (l : list ascii) :
  (PyStr.count_words in_word l <= List.length l)%nat.
Proof.
  revert in_word. induction l as [|c l IH]; intros in_word; simpl; [lia|].
  destruct (PyStr.isspace_char c); [specialize (IH false); lia|].
  destruct in_word; [specialize (IH true); lia | specialize (IH true); lia].
Qed.

Lemma count_words_pos (l : list ascii) :
  existsb (fun c => negb (PyStr.isspace_char c)) l = true ->
  (1 <= PyStr.count_words false l)%nat.
Proof.
  induction l as [|c l IH]; simpl; [discriminate|].
  destruct (PyStr.isspace_char c); simpl; [exact IH | lia].
Qed.

Ltac char_ranges :=
  unfold PyStr.isdigit_char, PyStr.isupper_char, PyStr.islower_char,
    PyStr.isspace_char;
  repeat match goal with
         | |- context [(?a <=? ?b)%nat] => destruct (Nat.leb_spec a b)
         | |- context [(?a =? ?b)%nat] => destruct (Nat.eqb_spec a b)
         end; simpl; try reflexivity; try discriminate; try lia.

Lemma digit_not_space (c : ascii) :
  PyStr.isdigit_char c = true -> PyStr.isspace_char c = false.
Proof. char_ranges. Qed.

Lemma upper_not_space (c : ascii) :
  PyStr.isupper_char c = true -> PyStr.isspace_char c = false.
Proof. char_ranges. Qed.

Lemma lower_not_space (c : ascii) :
  PyStr.islower_char c = true -> PyStr.isspace_char c = false.
Proof. char_ranges. Qed.

Lemma existsb_impl {A : Type} (p q : A -> bool) (l : list A) :
  (forall x, p x = true -> q x = true) -> existsb p l = true -> existsb q l = true.
Proof.
  intros H. rewrite !existsb_exists. intros (x & Hx & Hp). exists x. auto.
Qed.

Lemma lstrip_In (l : list ascii) (c : ascii) : In c (PyStr.lstrip l) -> In c l.
Proof.
  induction l as [|x l IH]; simpl; [tauto|].
  destruct (PyStr.isspace_char x); [intros H; right; now apply IH | tauto].
Qed.

Lemma strip_In (l : list ascii) (c : ascii) : In c (PyStr.strip l) -> In c l.
Proof.
  unfold PyStr.strip. intros H.
  apply in_rev in H. apply lstrip_In in H. apply in_rev in H.
  now apply lstrip_In.
Qed.

Lemma starts_with_digit_has_digit (s : string) :
  PyStr.starts_with_digit s = true -> PyStr.has_digit s = true.
Proof.
  unfold PyStr.starts_with_digit, PyStr.has_digit.
  destruct (PyStr.strip (PyStr.chars s)) as [|c r] eqn:E; [discriminate|].
  intros Hc. apply existsb_exists. exists c. split; [|exact Hc].
  apply strip_In. rewrite E. now left.
Qed.

Lemma istitle_from_cased (l : list ascii) (previous_is_cased : bool) :
  PyStr.istitle_from previous_is_cased false l = true ->
  existsb (fun c => negb (PyStr.isspace_char c)) l = true.
Proof.
  revert previous_is_cased. induction l as [|c l IH]; intros p; simpl;
    [discriminate|].
  destruct (PyStr.isupper_char c) eqn:Eu.
  - intros _. now rewrite (upper_not_space c Eu).
  - destruct (PyStr.islower_char c) eqn:El.
    + intros _. now rewrite (lower_not_space c El).
    + intros H. rewrite (IH false H). apply orb_true_r.
Qed.

(** X2.  In every row of the feature table the word count lies between 0
    and the text length; a row that starts with a number has numbers; and a
    row that has numbers, is uppercase or is title case has at least one
    word. *)
Theorem X2_text_features_consistent (spans : list Span.t) :
  Forall counts_consistent (calculate_features spans).
Proof.
  rewrite calculate_features_map. apply Forall_forall. intros r Hr.
  apply in_map_iff in Hr. destruct Hr as (s & <- & _).
  unfold counts_consistent, span_features. cbv zeta.
  cbn [word_count text_length starts_with_number has_numbers is_uppercase
       is_title_case].
  rewrite !int_of_bool_1. unfold PyStr.word_count, PyStr.len.
  rewrite <- chars_length.
  pose proof (count_words_le false (PyStr.chars (Span.text s))) as Hle.
  repeat split; try lia.
  - apply starts_with_digit_has_digit.
  - intros H. apply (existsb_impl _ _ _ (fun c Hc =>
      eq_trans (f_equal negb (digit_not_space c Hc)) eq_refl)) in H.
    apply count_words_pos in H. lia.
  - unfold PyStr.isupper. rewrite andb_true_iff. intros [_ H].
    apply (existsb_impl _ _ _ (fun c Hc =>
      eq_trans (f_equal negb (upper_not_space c Hc)) eq_refl)) in H.
    apply count_words_pos in H. lia.
  - unfold PyStr.istitle. intros H. apply istitle_from_cased in H.
    apply count_words_pos in H. lia.
Qed.

(** X3.  If every span lies on its page vertically, every [position_ratio]
    of the feature table lies in [[0, 1]]. *)
Theorem X3_position_ratio_bounds (spans : list Span.t) :
  Forall on_page spans ->
  Forall (fun r => 0 <= position_ratio r <= 1) (calculate_features spans).
Proof.
  intros Hall. rewrite calculate_features_map. apply Forall_forall.
  intros r Hr. apply in_map_iff in Hr. destruct Hr as (s & <- & Hs).
  rewrite Forall_forall in Hall. destruct (Hall s Hs) as [Hlo Hhi].
  unfold span_features. cbv zeta. cbn [position_ratio].
  destruct (Num.Qlt_bool 0 (Span.page_height s)) eqn:E.
  - apply Qlt_bool_iff in E. split.
    + apply Qle_shift_div_l; [assumption | lra].
    + apply Qle_shift_div_r; [assumption | lra].
  - split; lra.
Qed.

Lemma X3_position_ratio_bounds_witness :
  Forall (fun r => 0 <= position_ratio r <= 1)
         (calculate_features [sample_heading; sample_body]).
Proof.
  apply (X3_position_ratio_bounds [sample_heading; sample_body]).
  repeat constructor; simpl; discriminate.
Defined.

(** ** Span extraction *)

Lemma lstrip_head (l : list ascii) (c : ascii) (r : list ascii) :
  PyStr.lstrip l = c :: r -> PyStr.isspace_char c = false.
Proof.
  induction l as [|x l IH]; simpl; [discriminate|].
  destruct (PyStr.isspace_char x) eqn:E; [exact IH|].
  intros [= <- _]. exact E.
Qed.

Lemma lstrip_nonspace (c : ascii) (r : list ascii) :
  PyStr.isspace_char c = false -> PyStr.lstrip (c :: r) = c :: r.
Proof. intros H. simpl. now rewrite H. Qed.

Lemma lstrip_idem (l : list ascii) : PyStr.lstrip (PyStr.lstrip l) = PyStr.lstrip l.
Proof.
  destruct (PyStr.lstrip l) as [|c r] eqn:E; [reflexivity|].
  apply lstrip_nonspace. eapply lstrip_head; eassumption.
Qed.

Lemma lstrip_snoc (l : list ascii) (c : ascii) :
  PyStr.isspace_char c = false ->
  PyStr.lstrip (l ++ [c]) = PyStr.lstrip l ++ [c].
Proof.
  intros Hc. induction l as [|x l IH]; simpl.
  - now rewrite Hc.
  - destruct (PyStr.isspace_char x); [exact IH | reflexivity].
Qed.

(** The result of [strip] is empty or begins with a character that is no
    whitespace, and stripping it again changes nothing. *)
Lemma strip_cons (l : list ascii) (c : ascii) (r : list ascii) :
  PyStr.lstrip l = c :: r ->
  PyStr.strip l = c :: rev (PyStr.lstrip (rev r)).
Proof.
  intros E. unfold PyStr.strip. rewrite E. simpl rev.
  rewrite lstrip_snoc by (eapply lstrip_head; eassumption).
  rewrite rev_app_distr. reflexivity.
Qed.

Lemma strip_nil (l : list ascii) : PyStr.lstrip l = [] -> PyStr.strip l = [].
Proof. intros E. unfold PyStr.strip. now rewrite E. Qed.

Lemma strip_idem (l : list ascii) : PyStr.strip (PyStr.strip l) = PyStr.strip l.
Proof.
  destruct (PyStr.lstrip l) as [|c r] eqn:E.
  - rewrite (strip_nil l E). reflexivity.
  - pose proof (lstrip_head l c r E) as Hc.
    rewrite (strip_cons l c r E).
    rewrite (strip_cons _ c (rev (PyStr.lstrip (rev r)))).
    + now rewrite rev_involutive, lstrip_idem.
    + now apply lstrip_nonspace.
Qed.

Lemma strip_head (l : list ascii) (c : ascii) (r : list ascii) :
  PyStr.strip l = c :: r -> PyStr.isspace_char c = false.
Proof.
  destruct (PyStr.lstrip l) as [|c' r'] eqn:E.
  - rewrite (strip_nil l E). discriminate.
  - rewrite (strip_cons l c' r' E). intros [= <- _].
    eapply lstrip_head; eassumption.
Qed.

Lemma page_spans_In (page_num : Z) (page : Fitz.Page) (s : Span.t) :
  In s (page_spans page_num page) ->
  exists span, s = span_info page_num page span
               /\ PyStr.strip (PyStr.chars (Fitz.text span)) <> [].
Proof.
  unfold page_spans. intros H.
  apply in_flat_map in H. destruct H as (block & _ & H).
  destruct (Fitz.lines block) as [lines|]; [|destruct H].
  apply in_flat_map in H. destruct H as (line & _ & H).
  apply in_flat_map in H. destruct H as (span & _ & H).
  exists span.
  destruct (PyStr.strip (PyStr.chars (Fitz.text span))) as [|c r] eqn:E;
    [destruct H|].
  destruct H as [<-|[]]. split; [reflexivity | discriminate].
Qed.

Lemma span_info_extracted (page_num : Z) (page : Fitz.Page) (span : Fitz.RawSpan) :
  PyStr.strip (PyStr.chars (Fitz.text span)) <> [] ->
  Span.text (span_info page_num page span) <> EmptyString
  /\ PyStr.strip (PyStr.chars (Span.text (span_info page_num page span)))
     = PyStr.chars (Span.text (span_info page_num page span)).
Proof.
  intros Hne. unfold span_info, PyStr.chars in *. cbn [Span.text].
  rewrite list_ascii_of_string_of_list_ascii. split.
  - destruct (PyStr.strip (list_ascii_of_string (Fitz.text span)));
      [congruence | discriminate].
  - apply strip_idem.
Qed.

Lemma StronglySorted_app {A : Type} (R : A -> A -> Prop) (l1 l2 : list A) :
  StronglySorted R l1 -> StronglySorted R l2 ->
  (forall a b, In a l1 -> In b l2 -> R a b) ->
  StronglySorted R (l1 ++ l2).
Proof.
  intros H1 H2 H. induction H1 as [|a l1 Hs IH Ha]; simpl; [exact H2|].
  constructor.
  - apply IH. intros x y Hx Hy. apply H; [now right | exact Hy].
  - apply Forall_app. split; [exact Ha|].
    apply Forall_forall. intros b Hb. apply H; [now left | exact Hb].
Qed.

Lemma StronglySorted_const {A : Type} (f : A -> Z) (k : Z) (l : list A) :
  Forall (fun a => f a = k) l ->
  StronglySorted (fun a b => (f a <= f b)%Z) l.
Proof.
  induction 1 as [|a l Ha Hl IH]; constructor; [exact IH|].
  eapply Forall_impl; [|exact Hl]. intros b Hb. simpl in Hb. lia.
Qed.

Lemma doc_spans_spec (doc : list Fitz.Page) (page_num : Z) :
  Forall (fun s => Span.text s <> EmptyString
                   /\ PyStr.strip (PyStr.chars (Span.text s))
                      = PyStr.chars (Span.text s)
                   /\ (page_num + 1 <= Span.page_number s
                       <= page_num + Z.of_nat (List.length doc))%Z)
         (doc_spans page_num doc)
  /\ StronglySorted (fun a b => (Span.page_number a <= Span.page_number b)%Z)
                    (doc_spans page_num doc).
Proof.
  revert page_num. induction doc as [|page rest IH]; intros page_num.
  - split; constructor.
  - destruct (IH (page_num + 1)%Z) as [Hall Hsorted].
    assert (Hpage : Forall (fun s => Span.text s <> EmptyString
                   /\ PyStr.strip (PyStr.chars (Span.text s))
                      = PyStr.chars (Span.text s)
                   /\ Span.page_number s = (page_num + 1)%Z)
                  (page_spans page_num page)).
    { apply Forall_forall. intros s Hs.
      apply page_spans_In in Hs. destruct Hs as (span & -> & Hne).
      destruct (span_info_extracted page_num page span Hne) as [H1 H2].
      repeat split; assumption. }
    cbn [doc_spans]. split.
    + apply Forall_app. split.
      * eapply Forall_impl; [|exact Hpage].
        intros s (H1 & H2 & H3). repeat split; try assumption;
          rewrite H3; cbn [List.length]; lia.
      * eapply Forall_impl; [|exact Hall].
        intros s (H1 & H2 & H3). repeat split; try assumption;
          cbn [List.length]; lia.
    + apply StronglySorted_app.
      * apply StronglySorted_const with (k := (page_num + 1)%Z).
        eapply Forall_impl; [|exact Hpage]. intros s H. apply H.
      * exact Hsorted.
      * intros a b Ha Hb.
        rewrite Forall_forall in Hpage, Hall.
        destruct (Hpage a Ha) as (_ & _ & ->).
        destruct (Hall b Hb) as (_ & _ & Hb'). lia.
Qed.

(** X4.  From a document that opens, [extract_text_spans] returns spans
    whose text is not empty and is already stripped, whose page numbers run
    from 1 to the number of pages, and which come page by page: the page
    numbers never decrease along the list.  A document that does not open
    makes it raise. *)
Theorem X4_extracted_spans (doc : list Fitz.Page) :
  extract_text_spans None = None
  /\ exists spans,
       extract_text_spans (Some doc) = Some spans
       /\ Forall (extracted_span (Z.of_nat (List.length doc))) spans
       /\ StronglySorted (fun a b => (Span.page_number a <= Span.page_number b)%Z)
                         spans.
Proof.
  split; [reflexivity|]. exists (doc_spans 0 doc).
  destruct (doc_spans_spec doc 0) as [Hall Hsorted].
  split; [reflexivity|]. split; [|exact Hsorted].
  eapply Forall_impl; [|exact Hall].
  intros s (H1 & H2 & H3). unfold extracted_span. repeat split; try assumption; lia.
Qed.

Example sample_pdf_spans :
  option_map (map (fun s => (Span.text s, Span.page_number s)))
             (extract_text_spans (Some sample_pdf))
  = Some [ ("Executive Summary"%string, 1%Z); ("lorem ipsum"%string, 1%Z);
           ("2 Methods"%string, 2%Z) ].
Proof. reflexivity. Qed.

(** X5.  The feature rows of a document read from a file have at least one
    character and at least one word, and [starts_with_number] is set exactly
    on the rows whose first character is a digit. *)
Theorem X5_features_of_extracted_spans (doc : list Fitz.Page) :
  exists rows,
    extract_features_from_pdf (Some doc) = Some rows
    /\ Forall row_of_extracted_span rows.
Proof.
  exists (calculate_features (doc_spans 0 doc)). split; [reflexivity|].
  rewrite calculate_features_map. apply Forall_forall. intros r Hr.
  apply in_map_iff in Hr. destruct Hr as (s & <- & Hs).
  destruct (doc_spans_spec doc 0) as [Hall _].
  rewrite Forall_forall in Hall. destruct (Hall s Hs) as (Hne & Hstrip & _).
  unfold row_of_extracted_span, begins_with_digit, span_features. cbv zeta.
  cbn [word_count text_length starts_with_number text].
  rewrite int_of_bool_1.
  unfold PyStr.word_count, PyStr.len, PyStr.starts_with_digit.
  rewrite <- chars_length, Hstrip.
  pose proof (count_words_le false (PyStr.chars (Span.text s))) as Hle.
  destruct (PyStr.chars (Span.text s)) as [|c rest] eqn:E.
  - exfalso. apply Hne. destruct (Span.text s); [reflexivity | discriminate].
  - assert (Hc : PyStr.isspace_char c = false)
      by (eapply strip_head; rewrite Hstrip; reflexivity).
    split.
    + split; [|lia]. cbn [PyStr.count_words]. rewrite Hc. lia.
    + split.
      * intros Hd. now exists c, rest.
      * intros (c' & rest' & [= <- <-] & Hd). exact Hd.
Qed.

(** ** The pipeline on a document with text *)

Lemma np_max_axis1_some (probs : list (list Q)) :
  (exists maxima, np_max_axis1 probs = Some maxima)
  <-> Forall (fun p => p <> []) probs.
Proof.
  induction probs as [|p probs IH]; simpl.
  - split; [constructor | eauto].
  - destruct p as [|x p]; simpl.
    + split; [intros [m H]; discriminate | intros H; inversion H; congruence].
    + destruct (np_max_axis1 probs) as [ms|].
      * split; [|eauto]. intros _. constructor; [discriminate|].
        apply IH. eauto.
      * split; [intros [m H]; discriminate|].
        intros H. inversion H as [|? ? _ H']. apply IH in H'.
        destruct H' as [m H']. discriminate.
Qed.

Lemma np_max_axis1_length (probs : list (list Q)) (maxima : list Q) :
  np_max_axis1 probs = Some maxima -> List.length maxima = List.length probs.
Proof.
  revert maxima. induction probs as [|p probs IH]; intros maxima; simpl.
  - now intros [= <-].
  - destruct (Num.max p); [|discriminate].
    destruct (np_max_axis1 probs) as [ms|]; [|discriminate].
    intros [= <-]. simpl. now rewrite (IH ms).
Qed.

Lemma assign_some (rows : list Row) (classes : list Z) (probs : list Q) :
  (exists df, assign rows classes probs = Some df)
  <-> List.length classes = List.length rows
      /\ List.length probs = List.length rows.
Proof.
  revert classes probs. induction rows as [|r rows IH]; intros classes probs.
  - destruct classes, probs; simpl; split; intros H;
      try (destruct H as [? H]; discriminate);
      try (destruct H; discriminate); eauto.
  - destruct classes as [|c cs], probs as [|p ps]; simpl;
      try (split; intros H;
           [destruct H as [? H]; discriminate | destruct H; discriminate]).
    specialize (IH cs ps).
    destruct (assign rows cs ps) as [df|]; simpl.
    + split; [|eauto]. intros _.
      destruct (proj1 IH) as [H1 H2]; [eauto|]. now rewrite H1, H2.
    + split; [intros [? [=]]|]. intros [[= H1] [= H2]].
      destruct (proj2 IH) as [df H]; [now split | discriminate].
Qed.

Lemma assign_rows (rows : list Row) (classes : list Z) (probs : list Q)
      (df : list ARow) :
  assign rows classes probs = Some df ->
  map row df = rows /\ map predicted_class df = classes
  /\ map max_probability df = probs.
Proof.
  revert classes probs df.
  induction rows as [|r rows IH]; intros classes probs df.
  - destruct classes, probs; simpl; try discriminate.
    intros [= <-]. auto.
  - destruct classes as [|c cs], probs as [|p ps]; simpl; try discriminate.
    destruct (assign rows cs ps) as [df'|] eqn:E; simpl; [|discriminate].
    intros [= <-]. destruct (IH cs ps df' E) as (H1 & H2 & H3).
    simpl. now rewrite H1, H2, H3.
Qed.

Lemma calculate_features_nonempty (spans : list Span.t) :
  spans <> [] -> DF.empty (calculate_features spans) = false.
Proof. destruct spans; [congruence | reflexivity]. Qed.

Lemma calculate_features_length (spans : list Span.t) :
  List.length (calculate_features spans) = List.length spans.
Proof. rewrite calculate_features_map. apply length_map. Qed.

(** The outcome of [process_pdf] on a document with text, by cases on the
    answers of the classifier. *)
Lemma process_pdf_cases (model : Classifier) (spans : list Span.t) :
  spans <> [] ->
  let rows := calculate_features spans in
  let X := map feature_vector rows in
  process_pdf model spans
  = match predict model X with
    | None => ([CallPredict], None)
    | Some preds =>
        match predict_proba model X with
        | None => ([CallPredict; CallPredictProba], None)
        | Some probs =>
            match np_max_axis1 probs with
            | None => ([CallPredict; CallPredictProba], None)
            | Some maxima =>
                match assign rows preds maxima with
                | None => ([CallPredict; CallPredictProba], None)
                | Some df =>
                    ([CallPredict; CallPredictProba; CallExtractTitle;
                      CallExtractOutline],
                     Some {| title := _extract_title df;
                             outline := _extract_outline df |})
                end
            end
        end
    end.
Proof.
  intros Hne. cbv zeta. unfold process_pdf.
  rewrite (calculate_features_nonempty spans Hne).
  destruct (predict model _) as [preds|]; [|reflexivity].
  destruct (predict_proba model _) as [probs|]; [|reflexivity].
  cbn [Trace.bind Trace.perform Trace.lift app].
  destruct (np_max_axis1 probs) as [maxima|]; [|reflexivity].
  destruct (assign _ preds maxima) as [df|]; reflexivity.
Qed.

(** X6.  On a document with text [process_pdf] returns a result exactly
    when both calls of the classifier return and their answers fit the
    feature table: one class per span and one non-empty vector of
    probabilities per span.  It then has made the four calls in order:
    predict, predict_proba, the title and the outline. *)
Theorem X6_process_pdf_returns (model : Classifier) (spans : list Span.t) :
  spans <> [] ->
  let X := map feature_vector (calculate_features spans) in
  ((exists result, snd (process_pdf model spans) = Some result)
   <-> exists preds probs,
         predict model X = Some preds /\ predict_proba model X = Some probs
         /\ well_shaped (List.length spans) preds probs)
  /\ (forall result, snd (process_pdf model spans) = Some result ->
        fst (process_pdf model spans)
        = [CallPredict; CallPredictProba; CallExtractTitle; CallExtractOutline]).
Proof.
  intros Hne. cbv zeta. rewrite (process_pdf_cases model spans Hne). cbv zeta.
  destruct (predict model _) as [preds|].
  2:{ split; [split|].
      - intros [? [=]].
      - intros (? & ? & [=] & _).
      - intros ? [=]. }
  destruct (predict_proba model _) as [probs|].
  2:{ split; [split|].
      - intros [? [=]].
      - intros (? & ? & _ & [=] & _).
      - intros ? [=]. }
  destruct (np_max_axis1 probs) as [maxima|] eqn:Emax.
  2:{ split; [split|].
      - intros [? [=]].
      - intros (? & ? & [= <-] & [= <-] & _ & _ & Hall).
        apply np_max_axis1_some in Hall. destruct Hall as [m Hm]. congruence.
      - intros ? [=]. }
  pose proof (np_max_axis1_length probs maxima Emax) as Hlen.
  destruct (assign _ preds maxima) as [df|] eqn:Eas.
  - split; [|reflexivity]. split; [|intros _; eexists; reflexivity]. intros _.
    exists preds, probs. split; [reflexivity|]. split; [reflexivity|].
    destruct (proj1 (assign_some (calculate_features spans) preds maxima))
      as [H1 H2]; [eauto|].
    rewrite calculate_features_length in H1, H2.
    split; [exact H1|]. split; [congruence|].
    apply np_max_axis1_some. eauto.
  - split; [split|].
    + intros [? [=]].
    + intros (? & ? & [= <-] & [= <-] & H1 & H2 & _).
      destruct (proj2 (assign_some (calculate_features spans) preds maxima))
        as [df H].
      * rewrite calculate_features_length. split; congruence.
      * congruence.
    + intros ? [=].
Qed.

Lemma X6_process_pdf_returns_witness :
  fst (process_pdf body_model [sample_heading; sample_body])
  = [CallPredict; CallPredictProba; CallExtractTitle; CallExtractOutline].
Proof.
  eapply (proj2 (X6_process_pdf_returns body_model [sample_heading; sample_body] _)).
  vm_compute. reflexivity.
  Unshelve. discriminate.
Defined.

(** ** Where the outline and the title come from *)

Lemma heuristic_rows (df : list ARow) :
  Forall (fun c => exists r, In r df /\ row c = row r)
         (_heuristic_heading_detection df).
Proof.
  rewrite heuristic_rowwise. apply Forall_forall. intros c Hc.
  apply filter_In in Hc. destruct Hc as [Hc _].
  apply in_map_iff in Hc. destruct Hc as (r & <- & Hr).
  exists r. split; [exact Hr | reflexivity].
Qed.

Lemma candidates_rows (df : list ARow) :
  Forall (fun c => exists r, In r df /\ row c = row r) (candidates df).
Proof.
  unfold candidates. rewrite confident_headings_filter.
  destruct (DF.empty _); [apply heuristic_rows|].
  apply Forall_forall. intros c Hc. apply filter_In in Hc.
  exists c. split; [tauto | reflexivity].
Qed.

Lemma candidates_length (df : list ARow) :
  (List.length (candidates df) <= List.length df)%nat.
Proof.
  unfold candidates. rewrite confident_headings_filter.
  destruct (DF.empty _).
  - rewrite heuristic_rowwise.
    etransitivity; [apply filter_length_le|]. now rewrite length_map.
  - apply filter_length_le.
Qed.

Lemma heading_of_level (c : ARow) :
  In (level (heading_of c)) ["H1"; "H2"; "H3"]%string.
Proof.
  unfold heading_of, level_map; simpl.
  destruct (predicted_class c) as [|[p|p|]|]; simpl; auto;
    destruct p as [p|p|]; simpl; auto.
Qed.

Lemma outline_length (df : list ARow) :
  List.length (_extract_outline df) = List.length (candidates df).
Proof.
  unfold _extract_outline. rewrite length_map.
  symmetry. apply Permutation_length, sort_values_perm.
Qed.

Lemma outline_headings (df : list ARow) :
  Forall (fun h => exists r, In r df /\ heading_from r h) (_extract_outline df).
Proof.
  unfold _extract_outline. apply Forall_forall. intros h Hh.
  apply in_map_iff in Hh. destruct Hh as (c & <- & Hc).
  apply (Permutation_in _ (Permutation_sym (sort_values_perm key_leb (candidates df))))
    in Hc.
  pose proof (candidates_rows df) as Hall. rewrite Forall_forall in Hall.
  destruct (Hall c Hc) as (r & Hr & Hrow).
  exists r. split; [exact Hr|]. unfold heading_from.
  split; [|split]; [| |apply heading_of_level];
    unfold heading_of; cbn [htext page]; now rewrite Hrow.
Qed.

Lemma StronglySorted_map {A B : Type} (R : A -> A -> Prop) (S : B -> B -> Prop)
      (f : A -> B) (l : list A) :
  (forall a b, R a b -> S (f a) (f b)) ->
  StronglySorted R l -> StronglySorted S (map f l).
Proof.
  intros H. induction 1 as [|a l Hs IH Ha]; simpl; constructor; [exact IH|].
  apply Forall_map. eapply Forall_impl; [|exact Ha]. intros b. apply H.
Qed.

Lemma outline_pages_sorted (df : list ARow) :
  StronglySorted Z.le (map page (_extract_outline df)).
Proof.
  unfold _extract_outline. rewrite map_map.
  apply (StronglySorted_map key_le Z.le); [|apply sorted_key_le].
  intros a b [H|[H _]]; cbn [heading_of page]; lia.
Qed.

(** X7.  Every entry of the outline has the text and the page number of a
    row of the table and one of the levels H1, H2, H3; the outline has at
    most as many entries as the table has rows. *)
Theorem X7_outline_from_rows (df : list ARow) :
  Forall (fun h => exists r, In r df /\ heading_from r h) (_extract_outline df)
  /\ (List.length (_extract_outline df) <= List.length df)%nat.
Proof.
  split; [apply outline_headings|].
  rewrite outline_length. apply candidates_length.
Qed.

(** X8.  The page numbers of the outline never decrease from one entry to
    the next ones. *)
Theorem X8_outline_pages_sorted (df : list ARow) :
  StronglySorted Z.le (map page (_extract_outline df)).
Proof. apply outline_pages_sorted. Qed.

Lemma filter_idem {A : Type} (p : A -> bool) (l : list A) :
  filter p (filter p l) = filter p l.
Proof.
  rewrite filter_filter. apply filter_ext. intros x. now destruct (p x).
Qed.

Lemma title_candidates_local (df : list ARow) :
  title_candidates (filter on_first_page df) = title_candidates df.
Proof.
  unfold title_candidates. rewrite filter_filter. apply filter_ext.
  intros x. now destruct (on_first_page x).
Qed.

Lemma heuristic_title_local (df : list ARow) :
  identify_title_heuristic (map row (filter on_first_page df))
  = identify_title_heuristic (map row df).
Proof.
  rewrite !identify_title_heuristic_rows. cbv zeta. now rewrite filter_idem.
Qed.

(** X9.  The title depends on the rows of page 1 only: the rows of the
    other pages can be removed from the table without changing it. *)
Theorem X9_title_reads_first_page_only (df : list ARow) :
  _extract_title (filter on_first_page df) = _extract_title df.
Proof.
  rewrite !extract_title_unfold. cbv zeta.
  now rewrite filter_idem, title_candidates_local, heuristic_title_local.
Qed.

Lemma max_from_self (cur : Q) (l : list Q) :
  existsb (fun x => Qeq_bool x (Num.max_from cur l)) (cur :: l) = true.
Proof.
  apply existsb_exists. exists (Num.max_from cur l).
  split; [apply max_from_In | apply Qeq_bool_iff, Qeq_refl].
Qed.

(** The page-1 heuristic finds a row as soon as page 1 has one. *)
Lemma heuristic_title_found (df : list ARow) :
  filter on_first_page df <> [] ->
  exists r, In r (filter on_first_page df)
            /\ identify_title_heuristic (map row df) = Some (text r).
Proof.
  intros Hne. rewrite identify_title_heuristic_rows. cbv zeta.
  revert Hne. generalize (filter on_first_page df) as fp. intros fp Hne.
  rewrite (match_nonempty fp _ _ Hne).
  destruct (max_some (map (fun r : ARow => font_size r) fp)) as [m Hm].
  { destruct fp; [congruence | discriminate]. }
  rewrite Hm.
  destruct (filter (fun r : ARow => Num.eq_nan (font_size r) (Some m)
                                    && (is_bold r =? 1)%Z) fp)
    as [|r rest] eqn:Ef.
  - destruct (filter (fun r : ARow => Num.eq_nan (font_size r) (Some m)) fp)
      as [|r rest] eqn:Eg.
    + exfalso. rewrite filter_nil_iff in Eg. rewrite Forall_forall in Eg.
      destruct fp as [|x fp']; [congruence|]. simpl in Hm.
      injection Hm as <-.
      pose proof (max_from_self (font_size x)
                    (map (fun r : ARow => font_size r) fp')) as Hex.
      change (font_size x :: map (fun r : ARow => font_size r) fp')
        with (map (fun r : ARow => font_size r) (x :: fp')) in Hex.
      rewrite existsb_exists in Hex. destruct Hex as (q & Hq & Hqm).
      apply in_map_iff in Hq. destruct Hq as (y & <- & Hy).
      specialize (Eg y Hy). simpl in Eg. congruence.
    + exists r. split; [eapply filter_head_In; eassumption | reflexivity].
  - exists r. split; [eapply filter_head_In; eassumption | reflexivity].
Qed.

Lemma extract_title_source (df : list ARow) :
  (filter on_first_page df = [] /\ _extract_title df = EmptyString)
  \/ exists r, In r df /\ page_number r = 1%Z /\ _extract_title df = text r.
Proof.
  destruct (title_candidates df) as [|c cs] eqn:Ec.
  - rewrite (extract_title_fallback df Ec).
    destruct (filter on_first_page df) as [|x fp] eqn:Efp.
    + left. split; [reflexivity|].
      rewrite identify_title_heuristic_rows. cbv zeta. now rewrite Efp.
    + right. destruct (heuristic_title_found df) as (r & Hr & E).
      { rewrite Efp. discriminate. }
      rewrite E, or_empty_some. apply first_page_In in Hr.
      exists r. tauto.
  - right.
    assert (Hc : title_candidates df <> []) by (rewrite Ec; discriminate).
    destruct (loc_idxmax_first_largest _ Hc) as (r & Hloc & (b & a & Hsplit & _)).
    destruct (extract_title_classifier df Hc) as (r' & Hloc' & Ht).
    assert (r' = r) by congruence. subst r'.
    assert (Hin : In r (title_candidates df)).
    { rewrite Hsplit. apply in_or_app. right. now left. }
    apply title_candidates_In in Hin. exists r. tauto.
Qed.

(** X10.  As soon as the table has a row on page 1, the title is the text
    of a row of page 1: the resolver never comes back without one. *)
Theorem X10_title_found_on_first_page (df : list ARow) :
  filter on_first_page df <> [] ->
  exists r, In r df /\ page_number r = 1%Z /\ _extract_title df = text r.
Proof.
  intros Hne. destruct (extract_title_source df) as [[He _]|H];
    [contradiction | exact H].
Qed.

Lemma X10_title_found_on_first_page_witness :
  exists r, In r sample_table /\ page_number r = 1%Z
            /\ _extract_title sample_table = text r.
Proof.
  apply (X10_title_found_on_first_page sample_table). vm_compute. discriminate.
Defined.

Lemma row_span (spans : list Span.t) (df : list ARow) (r : ARow) :
  map row df = calculate_features spans -> In r df ->
  exists s, In s spans /\ text r = Span.text s
            /\ page_number r = Span.page_number s.
Proof.
  intros Hrows Hr. apply (in_map row) in Hr. rewrite Hrows in Hr.
  rewrite calculate_features_map in Hr. apply in_map_iff in Hr.
  destruct Hr as (s & E & Hs). exists s. rewrite <- E. auto.
Qed.

Lemma filter_map_comm {A B : Type} (q : B -> bool) (f : A -> B) (l : list A) :
  filter q (map f l) = map f (filter (fun x => q (f x)) l).
Proof.
  induction l as [|x l IH]; simpl; [reflexivity|].
  destruct (q (f x)); simpl; now rewrite IH.
Qed.

(** The candidates are rows selected from the table, their annotation
    apart. *)
Lemma candidates_shape (df : list ARow) :
  exists (p : ARow -> bool) (g : ARow -> ARow),
    candidates df = map g (filter p df) /\ forall r, row (g r) = row r.
Proof.
  unfold candidates. rewrite confident_headings_filter.
  destruct (DF.empty _).
  - exists (fun r => (0 <? predicted_class (heuristic_annotate df r))%Z),
           (heuristic_annotate df).
    split; [|reflexivity].
    rewrite heuristic_rowwise.
    exact (filter_map_comm (fun c : ARow => (0 <? predicted_class c)%Z)
                           (heuristic_annotate df) df).
  - exists classifier_confidentb, (fun r => r).
    split; [now rewrite map_id | reflexivity].
Qed.

(** The rows that a test keeps, each with its span. *)
Lemma kept_with_spans (f : Span.t -> Row) (p : ARow -> bool) (df : list ARow)
      (spans : list Span.t) :
  map row df = map f spans ->
  exists kept : list (ARow * Span.t),
    filter p df = map fst kept
    /\ DF.select spans (map p df) = map snd kept
    /\ Forall (fun z => row (fst z) = f (snd z)) kept.
Proof.
  revert spans. induction df as [|r df IH]; intros spans Hrows.
  - exists []. destruct spans; [|discriminate]. repeat split; constructor.
  - destruct spans as [|s spans]; [discriminate|].
    injection Hrows as Hr Hrows.
    destruct (IH spans Hrows) as (kept & Hf & Hs & Hall).
    simpl. destruct (p r).
    + exists ((r, s) :: kept). simpl. rewrite Hf, Hs.
      repeat split. now constructor.
    + exists kept. auto.
Qed.

Lemma Forall2_map_both {A B C : Type} (R : B -> C -> Prop) (a : A -> B) (b : A -> C)
      (l : list A) :
  Forall (fun z => R (a z) (b z)) l -> Forall2 R (map a l) (map b l).
Proof. induction 1; simpl; constructor; assumption. Qed.

Lemma outline_picks (spans : list Span.t) (df : list ARow) :
  map row df = calculate_features spans ->
  exists mask picks,
    Permutation (DF.select spans mask) picks
    /\ Forall2 heading_from_span picks (_extract_outline df).
Proof.
  intros Hrows. rewrite calculate_features_map in Hrows.
  destruct (candidates_shape df) as (p & g & Hc & Hg).
  destruct (kept_with_spans _ p df spans Hrows) as (kept & Hf & Hs & Hall).
  unfold _extract_outline. rewrite Hc, Hf, map_map.
  set (h := fun z : ARow * Span.t => g (fst z)).
  destruct (Permutation_map_inv h kept
              (Permutation_sym (sort_values_perm key_leb (map h kept))))
    as (kept' & Hsorted & Hperm).
  exists (map p df), (map snd kept'). split.
  - rewrite Hs. now apply Permutation_map.
  - rewrite Hsorted, map_map. apply Forall2_map_both.
    eapply Permutation_Forall in Hall; [|exact Hperm].
    eapply Forall_impl; [|exact Hall].
    intros z Hz. simpl in Hz. unfold heading_from_span, h.
    split; [|split]; [| |apply heading_of_level];
      unfold heading_of; cbn [htext page]; now rewrite Hg, Hz.
Qed.

Lemma table_result_from_spans (spans : list Span.t) (df : list ARow) :
  map row df = calculate_features spans ->
  result_from_spans spans
    {| title := _extract_title df; outline := _extract_outline df |}.
Proof.
  intros Hrows. unfold result_from_spans. cbn [title outline].
  assert (Hlen : List.length df = List.length spans).
  { rewrite <- (length_map row), Hrows. apply calculate_features_length. }
  split; [|split; [|split]].
  - now apply outline_picks.
  - rewrite outline_length, <- Hlen. apply candidates_length.
  - apply outline_pages_sorted.
  - destruct (extract_title_source df) as [[_ E]|(r & Hr & Hp & E)];
      [now left | right].
    destruct (row_span spans df r Hrows Hr) as (s & Hs & Et & Ep).
    exists s. split; [exact Hs|]. split; congruence.
Qed.

(** X11.  Whatever the classifier answers, a result of [process_pdf] is made
    of the spans of the document: the entries of the outline are made of
    spans selected from the document, each span giving at most one entry,
    with its text, its page number and one of the levels H1, H2, H3; the page
    numbers of the outline never decrease; and the title is empty or the
    text of a span of page 1. *)
Theorem X11_result_made_of_spans (model : Classifier) (spans : list Span.t)
        (result : DocumentResult) :
  snd (process_pdf model spans) = Some result ->
  result_from_spans spans result.
Proof.
  destruct spans as [|s0 spans'] eqn:Es.
  - intros [= <-]. unfold result_from_spans; simpl.
    split; [exists [], []; split; constructor|].
    split; [constructor|]. split; [constructor|].
    now left.
  - rewrite <- Es. assert (Hne : spans <> []) by (rewrite Es; discriminate).
    clear Es. rewrite (process_pdf_cases model spans Hne). cbv zeta.
    destruct (predict model _) as [preds|]; [|discriminate].
    destruct (predict_proba model _) as [probs|]; [|discriminate].
    destruct (np_max_axis1 probs) as [maxima|]; [|discriminate].
    destruct (assign _ preds maxima) as [df|] eqn:Eas; [|discriminate].
    intros [= <-]. apply table_result_from_spans.
    now destruct (assign_rows _ _ _ _ Eas) as (H & _ & _).
Qed.

Lemma X11_result_made_of_spans_witness :
  result_from_spans
    [sample_heading; sample_body]
    {| title := "Executive Summary";
       outline := [ {| level := "H3"; htext := "Executive Summary"; page := 1 |} ] |}.
Proof.
  apply (X11_result_made_of_spans body_model [sample_heading; sample_body]).
  vm_compute. reflexivity.
Defined.

(** ** What the heuristic detector selects *)












Example twin_table_headings :
  map (fun c : ARow => (text c, predicted_class c))
      (_heuristic_heading_detection twin_table)
  = [("One"%string, 3%Z); ("Two"%string, 3%Z)].
Proof. vm_compute. reflexivity. Qed.


(** ** Documents without text, and batches *)

Lemma flat_map_nil {A B : Type} (f : A -> list B) (l : list A) :
  Forall (fun x => f x = []) l -> flat_map f l = [].
Proof.
  induction 1 as [|x l Hx Hl IH]; simpl; [reflexivity|].
  now rewrite Hx, IH.
Qed.

Lemma blank_page_spans (page_num : Z) (page : Fitz.Page) :
  blank_page page -> page_spans page_num page = [].
Proof.
  unfold blank_page, page_spans. intros H. apply flat_map_nil.
  eapply Forall_impl; [|exact H]. intros block Hb. simpl in Hb.
  destruct (Fitz.lines block) as [lines|]; [|reflexivity].
  apply flat_map_nil. eapply Forall_impl; [|exact Hb]. intros line Hl.
  apply flat_map_nil. eapply Forall_impl; [|exact Hl]. intros span Hs.
  simpl in Hs. now rewrite Hs.
Qed.

Lemma blank_doc_spans (doc : list Fitz.Page) (page_num : Z) :
  Forall blank_page doc -> doc_spans page_num doc = [].
Proof.
  intros H. revert page_num. induction H as [|page doc Hp Hd IH]; intros n;
    simpl; [reflexivity|].
  now rewrite (blank_page_spans n page Hp), IH.
Qed.

(** X14.  A document whose pages hold no text (images, or spans of
    whitespace only) is processed to the result with the empty title and the
    empty outline, without a call to the classifier, whatever the classifier
    is. *)
Theorem X14_document_without_text (model : Classifier) (doc : list Fitz.Page) :
  Forall blank_page doc ->
  process_pdf_file model (Some doc)
  = ([], Some {| title := EmptyString; outline := [] |}).
Proof.
  intros H. unfold process_pdf_file, extract_text_spans. cbn [option_map].
  now rewrite (blank_doc_spans doc 0 H).
Qed.

Lemma X14_document_without_text_witness :
  process_pdf_file failing_model (Some scanned_pdf)
  = ([], Some {| title := EmptyString; outline := [] |}).
Proof.
  apply (X14_document_without_text failing_model scanned_pdf).
  repeat constructor.
Defined.

Lemma dict_set_fresh {V : Type} (d : list (string * V)) (key : string) (v : V) :
  ~ In key (map fst d) -> Dict.set d key v = d ++ [(key, v)].
Proof.
  induction d as [|[k v'] d IH]; simpl; [reflexivity|].
  intros H. destruct (String.eqb_spec k key) as [->|Hne].
  - exfalso. apply H. now left.
  - rewrite IH; [reflexivity|]. intros Hin. apply H. now right.
Qed.

Lemma process_batch_from (model : Classifier) (stem : string -> string)
      (pdf_files : list (string * option (list Fitz.Page)))
      (results : list (string * BatchEntry))
      (written : list (string * DocumentResult)) :
  NoDup (map fst results ++ map fst pdf_files) ->
  fold_left
    (fun (st : list (string * BatchEntry) * list (string * DocumentResult))
         (pdf_file : string * option (list Fitz.Page)) =>
       let '(results, written) := st in
       let '(name, pdf) := pdf_file in
       match snd (process_pdf_file model pdf) with
       | Some result =>
           (Dict.set results name (Processed result),
            written ++ [((stem name ++ ".json")%string, result)])
       | None => (Dict.set results name Failed, written)
       end)
    pdf_files (results, written)
  = (results ++ map (fun f => (fst f, batch_entry model (snd f))) pdf_files,
     written ++ flat_map (batch_output model stem) pdf_files).
Proof.
  revert results written.
  induction pdf_files as [|[name pdf] files IH]; intros results written Hnd.
  - simpl. now rewrite !app_nil_r.
  - cbn [fold_left map flat_map fst snd].
    assert (Hfresh : ~ In name (map fst results)).
    { intros Hin. apply NoDup_app_remove_r in Hnd as Hr.
      simpl in Hnd. apply NoDup_remove_2 in Hnd. apply Hnd.
      apply in_or_app. now left. }
    assert (Hnd' : forall e, NoDup (map fst (results ++ [(name, e)]) ++ map fst files)).
    { intros e. rewrite map_app, <- app_assoc. exact Hnd. }
    unfold batch_entry, batch_output. cbn [fst snd].
    destruct (snd (process_pdf_file model pdf)) as [result|].
    + rewrite (dict_set_fresh results name _ Hfresh), IH by apply Hnd'.
      now rewrite <- !app_assoc.
    + rewrite (dict_set_fresh results name _ Hfresh), IH by apply Hnd'.
      now rewrite <- !app_assoc.
Qed.

(** X15.  In a batch of files with distinct names every file is processed
    on its own: the dictionary of results has one entry per file, in the
    order of the files, which is the result of that file or the mark of its
    failure, and the JSON files written are those of the files that were
    processed, in the same order.  A file that fails changes nothing for the
    others. *)
Theorem X15_batch_processes_each_file_alone
        (model : Classifier) (stem : string -> string)
        (pdf_files : list (string * option (list Fitz.Page))) :
  NoDup (map fst pdf_files) ->
  process_batch model stem pdf_files
  = (map (fun f => (fst f, batch_entry model (snd f))) pdf_files,
     flat_map (batch_output model stem) pdf_files).
Proof.
  intros Hnd. unfold process_batch.
  now rewrite (process_batch_from model stem pdf_files [] []).
Qed.

Example sample_folder_batch :
  map (fun e => (fst e, match snd e with Processed _ => true | Failed => false end))
      (fst (process_batch body_model (fun name => name) sample_folder))
  = [ ("report.pdf"%string, true); ("broken.pdf"%string, false);
      ("scan.pdf"%string, true) ].
Proof. vm_compute. reflexivity. Qed.

Lemma X15_batch_processes_each_file_alone_witness :
  process_batch body_model (fun name => name) sample_folder
  = (map (fun f => (fst f, batch_entry body_model (snd f))) sample_folder,
     flat_map (batch_output body_model (fun name => name)) sample_folder).
Proof.
  apply (X15_batch_processes_each_file_alone body_model (fun name => name)
                                             sample_folder).
  repeat constructor; simpl; intuition discriminate.
Defined.

(** ** Upload filter *)

Lemma contains_In (sep : ascii) (l : list ascii) :
  PyStr.contains sep l = true <-> In sep l.
Proof.
  unfold PyStr.contains. rewrite existsb_exists. split.
  - intros (x & Hx & E). apply Ascii.eqb_eq in E. now subst.
  - intros H. exists sep. split; [exact H | apply Ascii.eqb_refl].
Qed.

Lemma rsplit1_without (sep : ascii) (l : list ascii) :
  ~ In sep l -> PyStr.rsplit1 sep l = [l].
Proof.
  induction l as [|c l IH]; simpl; [reflexivity|].
  intros H. rewrite IH by tauto.
  destruct l as [|c' l'].
  - destruct (Ascii.eqb_spec c sep) as [->|]; [exfalso; apply H; now left|].
    reflexivity.
  - destruct (Ascii.eqb_spec c sep) as [->|]; [exfalso; apply H; now left|].
    reflexivity.
Qed.

Lemma rsplit1_at_last (sep : ascii) (base ext : list ascii) :
  ~ In sep ext -> PyStr.rsplit1 sep (base ++ sep :: ext) = [base; ext].
Proof.
  intros H. induction base as [|c base IH].
  - simpl. rewrite (rsplit1_without sep ext H), Ascii.eqb_refl.
    destruct ext; reflexivity.
  - simpl. now rewrite IH.
Qed.

Lemma split_at_last (sep : ascii) (l : list ascii) :
  In sep l -> exists base ext, l = base ++ sep :: ext /\ ~ In sep ext.
Proof.
  induction l as [|c l IH]; simpl; [tauto|].
  intros H. destruct (in_dec ascii_dec sep l) as [Hin|Hnot].
  - destruct (IH Hin) as (base & ext & -> & Hext).
    exists (c :: base), ext. split; [reflexivity | exact Hext].
  - destruct H as [->|H]; [|contradiction].
    exists [], l. split; [reflexivity | exact Hnot].
Qed.

(** X16.  A file name is accepted exactly when it has a dot and the part
    after its last dot is "pdf", in any mix of upper and lower case. *)
Theorem X16_allowed_file (filename : string) :
  Routes.allowed_file filename = true
  <-> exists base ext,
        PyStr.chars filename = base ++ "."%char :: ext
        /\ ~ In "."%char ext
        /\ PyStr.lower ext = PyStr.chars "pdf".
Proof.
  unfold Routes.allowed_file. cbv zeta. rewrite andb_true_iff, contains_In.
  assert (Hext : forall ext,
             String.eqb (string_of_list_ascii (PyStr.lower ext)) "pdf" = true
             <-> PyStr.lower ext = PyStr.chars "pdf").
  { intros ext. rewrite String.eqb_eq. unfold PyStr.chars. split; intros H.
    - rewrite <- H. now rewrite list_ascii_of_string_of_list_ascii.
    - rewrite H. apply string_of_list_ascii_of_string. }
  split.
  - intros [Hin H]. destruct (split_at_last _ _ Hin) as (base & ext & E & Hnot).
    rewrite E, (rsplit1_at_last _ base ext Hnot) in H. cbn [nth_error] in H.
    exists base, ext. split; [exact E|]. split; [exact Hnot | now apply Hext].
  - intros (base & ext & E & Hnot & Hpdf). rewrite E. split.
    + apply in_or_app. right. now left.
    + rewrite (rsplit1_at_last _ base ext Hnot). cbn [nth_error].
      now apply Hext.
Qed.

Example allowed_file_samples :
  map Routes.allowed_file
      ["report.pdf"; "REPORT.PDF"; "a.b.Pdf"; ".pdf"; "report.pdf.exe"; "pdf";
       "report.pdf."; "report"; ""]%string
  = [true; true; true; true; false; false; false; false; false].
Proof. reflexivity. Qed.

(** ** Model files *)

Lemma dict_get_set_same {V : Type} (d : list (string * V)) (key : string) (v : V) :
  Dict.get (Dict.set d key v) key = Some v.
Proof.
  induction d as [|[k v'] d IH]; simpl.
  - now rewrite String.eqb_refl.
  - destruct (String.eqb_spec k key) as [->|Hne]; simpl.
    + now rewrite String.eqb_refl.
    + destruct (String.eqb_spec k key); [contradiction | exact IH].
Qed.

Lemma dict_get_set_other {V : Type} (d : list (string * V)) (key p : string) (v : V) :
  p <> key -> Dict.get (Dict.set d key v) p = Dict.get d p.
Proof.
  intros Hp. induction d as [|[k v'] d IH]; simpl.
  - destruct (String.eqb_spec key p); [congruence | reflexivity].
  - destruct (String.eqb_spec k key) as [->|Hne]; simpl.
    + destruct (String.eqb_spec key p); [congruence | reflexivity].
    + destruct (String.eqb_spec k p); [reflexivity | exact IH].
Qed.

(** X17.  No classifier without a model can be saved: [save_model] raises.
    A classifier with a model can: the file then written is read back by [load_model] of any
    classifier and by a new inference engine, both of which get the model and
    the class names that were saved, and no other file is changed. *)
Theorem X17_model_file_round_trip (self other : DocumentStructureClassifier.t)
        (fs : Joblib.Store) (model_path : string) :
  (DocumentStructureClassifier.is_none (DocumentStructureClassifier.model self)
   = true ->
   DocumentStructureClassifier.save_model self fs model_path = None)
  /\ (DocumentStructureClassifier.is_none (DocumentStructureClassifier.model self)
      = false ->
      exists fs',
        DocumentStructureClassifier.save_model self fs model_path = Some fs'
        /\ DocumentStructureClassifier.load_model other fs' model_path
           = (self, true)
        /\ init fs' model_path
           = Some (engine_of (DocumentStructureClassifier.model self)
                             (DocumentStructureClassifier.class_names self))
        /\ forall p, p <> model_path -> Joblib.load fs' p = Joblib.load fs p).
Proof.
  split.
  { intros Hm. unfold DocumentStructureClassifier.save_model. now rewrite Hm. }
  intros Hm.
  unfold DocumentStructureClassifier.save_model. rewrite Hm. cbv zeta.
  eexists. split; [reflexivity|].
  unfold DocumentStructureClassifier.load_model, init, Joblib.load, Joblib.dump.
  rewrite dict_get_set_same. cbn [Dict.get String.eqb Ascii.eqb Bool.eqb].
  split; [|split].
  - destruct self; reflexivity.
  - reflexivity.
  - intros p Hp. now apply dict_get_set_other.
Qed.

Lemma X17_model_file_round_trip_witness :
  exists fs',
    DocumentStructureClassifier.save_model
      (DocumentStructureClassifier.train DocumentStructureClassifier.new body_model)
      [] "models/document_classifier.pkl" = Some fs'
    /\ DocumentStructureClassifier.load_model
         DocumentStructureClassifier.new fs' "models/document_classifier.pkl"
       = (DocumentStructureClassifier.train DocumentStructureClassifier.new body_model,
          true)
    /\ init fs' "models/document_classifier.pkl"
       = Some (engine_of
                 (Joblib.VModel body_model)
                 (DocumentStructureClassifier.class_names
                    DocumentStructureClassifier.new))
    /\ forall p, p <> "models/document_classifier.pkl"%string ->
                 Joblib.load fs' p = Joblib.load [] p.
Proof.
  apply (proj2 (X17_model_file_round_trip
                  (DocumentStructureClassifier.train
                     DocumentStructureClassifier.new body_model)
                  DocumentStructureClassifier.new []
                  "models/document_classifier.pkl")).
  reflexivity.
Defined.

Lemma trained_model_file (fitted : Classifier) (fs : Joblib.Store)
      (model_save_path : string) :
  exists fs',
    DocumentStructureClassifier.train_document_classifier
      (Some fitted) fs model_save_path
    = Some (DocumentStructureClassifier.train DocumentStructureClassifier.new fitted,
            fs')
    /\ DocumentStructureClassifier.save_model
         (DocumentStructureClassifier.train DocumentStructureClassifier.new fitted)
         fs model_save_path = Some fs'
    /\ init fs' model_save_path
       = Some (engine_of (Joblib.VModel fitted)
                         (DocumentStructureClassifier.class_names
                            DocumentStructureClassifier.new)).
Proof.
  unfold DocumentStructureClassifier.train_document_classifier. cbv zeta.
  unfold DocumentStructureClassifier.save_model.
  cbn [DocumentStructureClassifier.train DocumentStructureClassifier.model
       DocumentStructureClassifier.is_none DocumentStructureClassifier.class_names].
  eexists. split; [reflexivity|]. split; [reflexivity|].
  unfold init, Joblib.load, Joblib.dump.
  rewrite dict_get_set_same. reflexivity.
Qed.



Lemma init_model_load_other (fs fs' : Joblib.Store) (model_path : string)
      (self : DocumentStructureClassifier.t) :
  DocumentStructureClassifier.save_model self fs model_path = Some fs' ->
  forall p, p <> model_path -> Joblib.load fs' p = Joblib.load fs p.
Proof.
  unfold DocumentStructureClassifier.save_model.
  destruct (DocumentStructureClassifier.is_none _); [discriminate|].
  intros [= <-] p Hp. now apply dict_get_set_other.
Qed.

(** X19.  [init_model] returns true only with an engine in place that was
    read from the model file; when it returns false the engine is the one
    there was before.  It trains only when the model file is missing: a file
    that exists is left as it is, and no other file is ever changed.  When
    the file is missing and training returns a fitted model, it returns true
    and the engine runs that model. *)
Theorem X19_init_model (training : option Classifier) (fs : Joblib.Store)
        (model_path : string) (engine : option Engine) :
  init_model_post fs model_path engine
                  (Routes.init_model training fs model_path engine)
  /\ (Dict.get fs model_path = None ->
      forall fitted, training = Some fitted ->
      exists fs' e,
        Routes.init_model training fs model_path engine = (fs', Some e, true)
        /\ Joblib.as_model (engine_model e) = fitted).
Proof.
  unfold Routes.init_model, init_model_post. cbv zeta. split.
  - destruct (Dict.get fs model_path) as [data|] eqn:Eget.
    + destruct (init fs model_path) as [e|] eqn:Ei;
        repeat split; intros; try discriminate; try congruence; auto.
    + destruct training as [fitted|].
      * destruct (trained_model_file fitted fs model_path)
          as (fs' & Et & Es & Ei).
        rewrite Et. cbn [option_map snd]. rewrite Ei.
        repeat split; intros; try discriminate; try congruence.
        eapply init_model_load_other; [exact Es | assumption].
      * repeat split; intros; try discriminate; try congruence; auto.
  - intros Eget fitted ->. rewrite Eget.
    destruct (trained_model_file fitted fs model_path) as (fs' & Et & Es & Ei).
    rewrite Et. cbn [option_map snd]. rewrite Ei.
    eexists. eexists. split; reflexivity.
Qed.

Lemma X19_init_model_witness :
  exists fs' e,
    Routes.init_model (Some body_model) [] "models/document_classifier.pkl" None
    = (fs', Some e, true)
    /\ Joblib.as_model (engine_model e) = body_model.
Proof.
  apply (proj2 (X19_init_model (Some body_model) []
                               "models/document_classifier.pkl" None)
               eq_refl body_model eq_refl).
Defined.

(** ** The processing endpoint *)

Lemma init_model_ready (training : option Classifier) (fs : Joblib.Store)
      (model_path : string) (engine : option Engine) :
  (snd (Routes.init_model training fs model_path engine) = true ->
   snd (fst (Routes.init_model training fs model_path engine)) <> None)
  /\ (snd (Routes.init_model training fs model_path engine) = false ->
      snd (fst (Routes.init_model training fs model_path engine)) = engine).
Proof.
  unfold Routes.init_model. cbv zeta.
  destruct (if match Dict.get fs model_path with Some _ => true | None => false end
            then Some fs else _) as [fs'|]; [|split; [discriminate | reflexivity]].
  destruct (init fs' model_path); simpl; split; congruence.
Qed.

Lemma allowed_file_not_empty (name : string) :
  Routes.allowed_file name = true -> String.eqb name "" = false.
Proof.
  destruct name; [discriminate | reflexivity].
Qed.

(** X20.  A request to the processing endpoint is answered with status 200
    only for a file with an allowed name, with the result of processing that
    file by the engine as body, and the copy saved in the upload folder is
    then removed.  A request answered with 400 has no file or a file whose
    name is not allowed, and leaves the upload folder as it was.  When
    processing the file raises (status 500 with an engine in place) the saved
    copy stays in the upload folder.  With an engine in place a file with an
    allowed name is answered with 200 if processing returns and with 500 if
    it raises.  An engine that is in place is kept, with the model files, and
    the endpoint answers 500 whenever it ends without an engine. *)
Theorem X20_api_process (training : option Classifier) (model_path : string)
        (upload_path : string -> string) (st : Routes.Server)
        (file : option Routes.Upload) :
  api_process_post upload_path st file
    (Routes.api_process training model_path upload_path st file).
Proof.
  unfold Routes.api_process, api_process_post.
  assert (Hinit :
    let '(fs, engine, ready) :=
      match Routes.inference_engine st with
      | Some _ => (Routes.model_files st, Routes.inference_engine st, true)
      | None =>
          Routes.init_model training (Routes.model_files st) model_path
                            (Routes.inference_engine st)
      end in
    (Routes.inference_engine st <> None ->
     engine = Routes.inference_engine st /\ fs = Routes.model_files st)
    /\ (ready = true -> engine <> None)
    /\ (ready = false -> engine = None)).
  { destruct (Routes.inference_engine st) as [e0|] eqn:Eengine.
    - repeat split; congruence.
    - pose proof (init_model_ready training (Routes.model_files st) model_path None)
        as [Hinit Hnot].
      destruct (Routes.init_model training (Routes.model_files st) model_path None)
        as [[fs engine] ready].
      repeat split; try congruence; auto. }
  destruct (match Routes.inference_engine st with
            | Some _ => _
            | None => _
            end) as [[fs engine] ready].
  destruct Hinit as (Hkeep & Hengine & Hnone).
  destruct ready; cbn [negb].
  2:{ rewrite (Hnone eq_refl) in *.
      cbn [Routes.inference_engine Routes.uploads Routes.model_files
           Routes.health_check].
      repeat split; intros; try discriminate; try congruence; try apply Hkeep; auto. }
  specialize (Hengine eq_refl).
  destruct engine as [e|]; [|congruence].
  destruct file as [f|].
  2:{ cbn [Routes.inference_engine Routes.uploads Routes.model_files
           Routes.health_check].
      repeat split; intros; try discriminate; try congruence; try apply Hkeep; auto. }
  destruct (Routes.allowed_file (Routes.filename f)) eqn:Hall.
  2:{ rewrite orb_true_r.
      cbn [Routes.inference_engine Routes.uploads Routes.model_files
           Routes.health_check].
      repeat split; intros; try discriminate; try congruence; try apply Hkeep; auto.
      right. exists f. auto. }
  rewrite (allowed_file_not_empty _ Hall). cbn [orb negb]. cbv zeta.
  destruct (snd (engine_process_pdf e (Routes.content f))) as [result|] eqn:Eproc;
    cbn [Routes.inference_engine Routes.uploads Routes.model_files
         Routes.health_check];
    repeat split; intros; try discriminate; try apply Hkeep; auto.
  - exists f, e, result. repeat split; auto. apply remove_In.
  - match goal with
    | H1 : Some f = Some ?f', H2 : Some e = Some ?e' |- _ =>
        injection H1 as <-; injection H2 as <-
    end.
    rewrite Eproc. auto.
  - exists f, e. repeat split; auto. now left.
  - match goal with
    | H1 : Some f = Some ?f', H2 : Some e = Some ?e' |- _ =>
        injection H1 as <-; injection H2 as <-
    end.
    rewrite Eproc. auto.
Qed.

(** A file that does not open is answered with 500 and stays in the upload
    folder; a file that opens is answered with 200 and is removed. *)
Example api_process_samples :
  map (fun file =>
         let '(st', (_, status)) :=
           Routes.api_process None "model.pkl" (fun name => ("uploads/" ++ name)%string)
                              ready_server (Some file) in
         (status, Routes.uploads st'))
      [ Routes.mkUpload "broken.pdf" None;
        Routes.mkUpload "scan.pdf" (Some scanned_pdf);
        Routes.mkUpload "notes.txt" (Some scanned_pdf) ]
  = [ (500%Z, ["uploads/broken.pdf"%string]); (200%Z, []); (400%Z, []) ].
Proof. vm_compute. reflexivity. Qed.

(** ** The outline and the order of the rows *)

Lemma sorted_perm_unique {A : Type} (R : A -> A -> Prop) (l1 l2 : list A) :
  StronglySorted R l1 -> StronglySorted R l2 -> Permutation l1 l2 ->
  (forall a b, In a l1 -> In b l1 -> R a b -> R b a -> a = b) ->
  l1 = l2.
Proof.
  intros H1. revert l2. induction H1 as [|a t1 Hs1 IH Ha]; intros l2 H2 Hp Hanti.
  - apply Permutation_nil in Hp. now subst.
  - destruct H2 as [|b t2 Hs2 Hb].
    + apply Permutation_sym, Permutation_nil in Hp. discriminate.
    + assert (Hab : a = b).
      { assert (Hina : In a (b :: t2)) by (eapply Permutation_in; [exact Hp | now left]).
        assert (Hinb : In b (a :: t1))
          by (eapply Permutation_in; [apply Permutation_sym; exact Hp | now left]).
        destruct Hina as [->|Hina]; [reflexivity|].
        destruct Hinb as [->|Hinb]; [reflexivity|].
        rewrite Forall_forall in Ha, Hb.
        apply Hanti; [now left | now right | now apply Ha | now apply Hb]. }
      subst b. f_equal. apply IH.
      * exact Hs2.
      * eapply Permutation_cons_inv; exact Hp.
      * intros x y Hx Hy. apply Hanti; now right.
Qed.

Lemma filter_perm {A : Type} (p : A -> bool) (l1 l2 : list A) :
  Permutation l1 l2 -> Permutation (filter p l1) (filter p l2).
Proof.
  induction 1 as [|x l1 l2 H IH|x y l|l1 l2 l3 H12 IH12 H23 IH23]; simpl.
  - constructor.
  - destruct (p x); [now constructor | exact IH].
  - destruct (p x), (p y); try reflexivity. apply perm_swap.
  - now transitivity (filter p l2).
Qed.

Lemma key_le_antisym (a b : ARow) : key_le a b -> key_le b a -> same_key a b = true.
Proof.
  unfold key_le, same_key. intros [H1|[H1 Y1]] [H2|[H2 Y2]]; try lia.
  rewrite H1, Z.eqb_refl. apply Qeq_bool_iff. now apply Qle_antisym.
Qed.

(** X21.  When the classifier gives confident headings and no two of them
    share the page and the vertical position, the outline does not depend on
    the order in which the rows of the table are given. *)
Theorem X21_outline_order_independent (df df' : list ARow) :
  Permutation df df' ->
  Exists classifier_confident df ->
  distinct_keys (filter classifier_confidentb df) ->
  _extract_outline df' = _extract_outline df.
Proof.
  intros Hp Hex Hdist.
  assert (Hex' : Exists classifier_confident df').
  { apply Exists_exists in Hex. destruct Hex as (r & Hr & Hc).
    apply Exists_exists. exists r. split; [|exact Hc].
    eapply Permutation_in; eassumption. }
  assert (Hcand : forall t, Exists classifier_confident t ->
                            candidates t = filter classifier_confidentb t).
  { intros t Ht. unfold candidates. rewrite confident_headings_filter.
    assert (Hne : filter classifier_confidentb t <> []).
    { apply filter_nonempty_iff. eapply Exists_impl; [|exact Ht].
      intros r. apply classifier_confidentb_iff. }
    apply empty_false in Hne. now rewrite Hne. }
  unfold _extract_outline. rewrite (Hcand df Hex), (Hcand df' Hex').
  f_equal. symmetry. apply (sorted_perm_unique key_le).
  - apply sorted_key_le.
  - apply sorted_key_le.
  - rewrite <- (sort_values_perm key_leb (filter classifier_confidentb df)).
    rewrite <- (sort_values_perm key_leb (filter classifier_confidentb df')).
    now apply filter_perm.
  - intros a b Hina Hinb Hab Hba.
    apply Hdist.
    + eapply Permutation_in; [apply Permutation_sym, sort_values_perm | exact Hina].
    + eapply Permutation_in; [apply Permutation_sym, sort_values_perm | exact Hinb].
    + now apply key_le_antisym.
Qed.

Lemma X21_outline_order_independent_witness :
  _extract_outline (rev distinct_candidates) = _extract_outline distinct_candidates.
Proof.
  apply (X21_outline_order_independent distinct_candidates (rev distinct_candidates)).
  - apply Permutation_rev.
  - apply Exists_cons_hd. split; [simpl; auto | reflexivity].
  - intros a b Ha Hb Hk. vm_compute in Ha, Hb.
    destruct Ha as [<-|[<-|[<-|[]]]]; destruct Hb as [<-|[<-|[<-|[]]]];
      try reflexivity; vm_compute in Hk; discriminate.
Defined.

(** ** What the classifier is given *)

Lemma feature_matrix_fits (spans : list Span.t) :
  let X := map feature_vector (calculate_features spans) in
  (List.length X =? List.length spans)%nat
  && forallb (fun v => (List.length v =? List.length feature_names)%nat) X
  = true.
Proof.
  cbv zeta. rewrite length_map, calculate_features_length, Nat.eqb_refl.
  cbn [andb]. apply forallb_forall. intros v Hv.
  apply in_map_iff in Hv. destruct Hv as (r & <- & _). reflexivity.
Qed.

Lemma feature_record_columns (max_font_size : Q) (span : Span.t) :
  DF.all_some (map (Dict.get (feature_record max_font_size span)) feature_names)
  = Some (map CNum (feature_vector (span_features max_font_size span))).
Proof. reflexivity. Qed.

Lemma all_some_map {A B : Type} (f : A -> option B) (g : A -> B) (l : list A) :
  (forall x, f x = Some (g x)) -> DF.all_some (map f l) = Some (map g l).
Proof.
  intros H. induction l as [|x l IH]; simpl; [reflexivity|].
  now rewrite H, IH.
Qed.

(** X22.  The dictionaries that [calculate_features] builds by zipping the
    feature names with the feature values have every name of
    [feature_names] as a key, so that the selection of the feature columns
    in [process_pdf] raises no [KeyError]; it yields, for every span, the
    sixteen features in the order of [feature_names], and the text and the
    page number stay under their own keys.  The matrix handed to the
    classifier thus has one row per span and one entry per feature name: a
    classifier that refuses any other matrix answers as if it did not
    check. *)
Theorem X22_classifier_gets_the_schema (model : Classifier) (spans : list Span.t) :
  DF.select_columns feature_names (calculate_feature_records spans)
  = Some (map (fun r => map CNum (feature_vector r)) (calculate_features spans))
  /\ Forall2 record_of_span spans (calculate_feature_records spans)
  /\ process_pdf (schema_checked (List.length spans) model) spans
     = process_pdf model spans.
Proof.
  split; [|split].
  - unfold DF.select_columns. rewrite calculate_features_map.
    assert (E : calculate_feature_records spans
                = map (feature_record (max_font_size spans)) spans)
      by (destruct spans; reflexivity).
    rewrite E, !map_map. apply all_some_map. intros s.
    apply feature_record_columns.
  - assert (E : calculate_feature_records spans
                = map (feature_record (max_font_size spans)) spans)
      by (destruct spans; reflexivity).
    rewrite E. apply Forall2_map_self. intros s _. split; reflexivity.
  - unfold process_pdf, schema_checked. cbv zeta. cbn [predict predict_proba].
    pose proof (feature_matrix_fits spans) as H. cbv zeta in H.
    rewrite H. reflexivity.
Qed.
